(** * Diagnostic toolkit of the Textual plugin: validator and debugger

    A shallow embedding of [textual-plugin/helpers/textual-validator.py]
    and [textual-plugin/helpers/textual-debug.py].

    Conventions of the embedding:
    - a Python [str] is a [string]; characters are code points below 256;
    - a Python [set] of names is a [gset string], a [dict] whose iteration
      order is observable is an association list, any other [dict] a [gmap];
    - an exception is a value of [exn]; code that can raise returns a sum,
      and code that mutates the validator threads it through the monad [M];
    - the syntax tree produced by [ast.parse] is the inductive [ast]; the
      parser itself is a library function and is a parameter of
      [validate_file]. *)

From Stdlib Require Import String Ascii List ZArith Lia Bool QArith DecimalString.
From stdpp Require Import gmap strings.
Import ListNotations.

Set Warnings "-register-all".

Local Open Scope string_scope.
Local Open Scope list_scope.

(* ===================================================================== *)
(** * Python string operations                                            *)
(* ===================================================================== *)

Module PyStr.

(** [str(n)] for a non-negative integer. *)
Definition of_nat (n : nat) : string := NilZero.string_of_uint (Nat.to_uint n).

(** [s.startswith(p)]. *)
Definition startswith (p s : string) : bool := String.prefix p s.

(** [needle in s]. *)
Fixpoint contains (needle s : string) : bool :=
  String.prefix needle s ||
  match s with
  | EmptyString => false
  | String _ s' => contains needle s'
  end.

(** [s.split(c)] for a separator of one character. *)
Fixpoint split (c : ascii) (s : string) : list string :=
  match s with
  | EmptyString => [EmptyString]
  | String a s' =>
      if Ascii.eqb a c then EmptyString :: split c s'
      else match split c s' with
           | h :: t => String a h :: t
           | [] => [String a EmptyString]
           end
  end.

(** [sep.join(l)]. *)
Definition join (sep : string) (l : list string) : string := String.concat sep l.

(** [s.count(c)] for a pattern of one character. *)
Fixpoint count (c : ascii) (s : string) : nat :=
  match s with
  | EmptyString => 0
  | String a s' => (if Ascii.eqb a c then 1 else 0) + count c s'
  end.

(** Characters removed by [str.strip()]: the code points below 256 for
    which [str.isspace] holds. *)
Definition isspace (a : ascii) : bool :=
  let n := nat_of_ascii a in
  (Nat.leb 9 n && Nat.leb n 13) || (Nat.leb 28 n && Nat.leb n 32)
  || Nat.eqb n 133 || Nat.eqb n 160.

Fixpoint lstrip (s : string) : string :=
  match s with
  | EmptyString => EmptyString
  | String a s' => if isspace a then lstrip s' else s
  end.

Fixpoint rstrip (s : string) : string :=
  match s with
  | EmptyString => EmptyString
  | String a s' =>
      match rstrip s' with
      | EmptyString => if isspace a then EmptyString else String a EmptyString
      | r => String a r
      end
  end.

(** [s.strip()]. *)
Definition strip (s : string) : string := rstrip (lstrip s).

Definition lower_char (a : ascii) : ascii :=
  let n := nat_of_ascii a in
  if (Nat.leb 65 n && Nat.leb n 90)
     || (Nat.leb 192 n && Nat.leb n 222 && negb (Nat.eqb n 215))
  then ascii_of_nat (n + 32) else a.

(** [s.lower()]. *)
Fixpoint lower (s : string) : string :=
  match s with
  | EmptyString => EmptyString
  | String a s' => String (lower_char a) (lower s')
  end.

(** [s[n:]]. *)
Fixpoint drop (n : nat) (s : string) : string :=
  match n, s with
  | O, _ => s
  | S n', String _ s' => drop n' s'
  | S _, EmptyString => EmptyString
  end.

(** [s.replace(old, new)] for a non-empty [old]: occurrences are replaced
    from the left and do not overlap.  [fuel] bounds the scan and is the
    length of [s] at the call. *)
Fixpoint replace_from (fuel : nat) (old new s : string) : string :=
  match fuel with
  | O => s
  | S fuel' =>
      if String.prefix old s
      then new ++ replace_from fuel' old new (drop (String.length old) s)
      else match s with
           | EmptyString => EmptyString
           | String a s' => String a (replace_from fuel' old new s')
           end
  end.

Definition replace (old new s : string) : string :=
  replace_from (String.length s) old new s.

Definition newline : ascii := ascii_of_nat 10.

End PyStr.

(* ===================================================================== *)
(** * Exceptions                                                          *)
(* ===================================================================== *)

(** A raised exception: its class and [str(e)]. *)
Inductive exn_class :=
  SyntaxError | AttributeError | TypeError | IndexError | OSError | OtherError.

Record exn := Exn { exn_cls : exn_class; exn_msg : string }.

(** Outcome of code that may raise. *)
Definition result (A : Type) : Type := exn + A.

(** The message of [getattr] on an object that lacks the attribute. *)
Definition no_attribute (cls attr : string) : exn :=
  Exn AttributeError ("'" ++ cls ++ "' object has no attribute '" ++ attr ++ "'").

(* ===================================================================== *)
(** * Syntax trees of the [ast] module                                    *)
(* ===================================================================== *)

Module PyAst.

(** The value of an [ast.Constant]: a [str], a [bytes], or a value of
    another type, of which only the type name matters. *)
Inductive constant :=
| CStr (s : string)
| CBytes (b : string)
| CNonStr (tyname : string).

(** The node classes the two tools test with [isinstance], with the
    fields they read.  Every other node class is [Other], which keeps the
    class name and the child nodes in field order.  The expression
    contexts ([Load], [Store]) are left out: they have no children and no
    check matches them.  [Call] keeps [lineno], the one position that is
    read.  [Module_] and [Import_] are the classes [ast.Module] and
    [ast.Import].  [FunctionDef] carries the fields of its
    [arguments] node: [fargs] is [node.args.args], [posonlyargs] comes
    before it and [argrest] holds the remaining children in field order. *)
Inductive ast :=
| Module_ (body : list ast)
| Import_ (names : list ast)
| ImportFrom (module : option string) (names : list ast)
| alias (name : string) (asname : option string)
| ClassDef (name : string) (bases keywords body decorator_list : list ast)
| FunctionDef (name : string) (posonlyargs fargs argrest : list ast)
              (body decorator_list : list ast) (returns : option ast)
| Assign (targets : list ast) (value : ast)
| Name (id : string)
| Attribute (value : ast) (attr : string)
| Call (lineno : nat) (func : ast) (args keywords : list ast)
| Constant (value : constant)
| Yield (value : option ast)
| Other (cls : string) (children : list ast).

(** [type(node).__name__]. *)
Definition class_name (n : ast) : string :=
  match n with
  | Module_ _ => "Module"
  | Import_ _ => "Import"
  | ImportFrom _ _ => "ImportFrom"
  | alias _ _ => "alias"
  | ClassDef _ _ _ _ _ => "ClassDef"
  | FunctionDef _ _ _ _ _ _ _ => "FunctionDef"
  | Assign _ _ => "Assign"
  | Name _ => "Name"
  | Attribute _ _ => "Attribute"
  | Call _ _ _ _ => "Call"
  | Constant _ => "Constant"
  | Yield _ => "Yield"
  | Other c _ => c
  end.

Definition opt_node (o : option ast) : list ast :=
  match o with Some n => [n] | None => [] end.

(** [ast.iter_child_nodes]: the child nodes in field order. *)
Definition iter_child_nodes (n : ast) : list ast :=
  match n with
  | Module_ body => body
  | Import_ names => names
  | ImportFrom _ names => names
  | alias _ _ => []
  | ClassDef _ bases keywords body decs => bases ++ keywords ++ body ++ decs
  | FunctionDef _ pos args rest body decs returns =>
      Other "arguments" (pos ++ args ++ rest) :: body ++ decs ++ opt_node returns
  | Assign targets value => targets ++ [value]
  | Name _ => []
  | Attribute value _ => [value]
  | Call _ func args keywords => func :: args ++ keywords
  | Constant _ => []
  | Yield value => opt_node value
  | Other _ children => children
  end.

(** Number of nodes of a tree, the [arguments] node of a function
    included. *)
Fixpoint size (n : ast) : nat :=
  let sizes := fix sizes (l : list ast) : nat :=
    match l with [] => 0 | x :: l' => size x + sizes l' end in
  match n with
  | Module_ body => S (sizes body)
  | Import_ names => S (sizes names)
  | ImportFrom _ names => S (sizes names)
  | alias _ _ => 1
  | ClassDef _ bases keywords body decs =>
      S (sizes bases + sizes keywords + sizes body + sizes decs)
  | FunctionDef _ pos args rest body decs returns =>
      S (S (sizes pos + sizes args + sizes rest) + sizes body + sizes decs
         + match returns with Some r => size r | None => 0 end)
  | Assign targets value => S (sizes targets + size value)
  | Name _ => 1
  | Attribute value _ => S (size value)
  | Call _ func args keywords => S (size func + sizes args + sizes keywords)
  | Constant _ => 1
  | Yield value => S (match value with Some r => size r | None => 0 end)
  | Other _ children => S (sizes children)
  end.

Fixpoint sizes (l : list ast) : nat :=
  match l with [] => 0 | x :: l' => size x + sizes l' end.

(** The loop of [ast.walk]: pop the head of the queue, push its children
    at the back, yield it.  One unit of fuel is spent per node. *)
Fixpoint walk_queue (fuel : nat) (todo : list ast) : list ast :=
  match fuel, todo with
  | S fuel', node :: rest => node :: walk_queue fuel' (rest ++ iter_child_nodes node)
  | _, _ => []
  end.

(** [ast.walk(node)]: the nodes of the tree, breadth first. *)
Definition walk (node : ast) : list ast := walk_queue (size node) [node].

(** [n] is [t] or one of its descendants. *)
Inductive subnode (n : ast) : ast -> Prop :=
| subnode_refl : subnode n n
| subnode_child c t : In c (iter_child_nodes t) -> subnode n c -> subnode n t.

End PyAst.

(* ===================================================================== *)
(** * Files                                                               *)
(* ===================================================================== *)

Module Files.

(** A file: its text, and the exception that opening it for reading or
    for writing raises, if any. *)
Record File := mkFile {
  f_content : string;
  f_read_error : option exn;
  f_write_error : option exn
}.

(** The file system maps a path to the file stored there. *)
Abbreviation FileSystem := (gmap string File).

(** [Path(p).exists()]. *)
Definition exists_ (fs : FileSystem) (p : string) : bool :=
  match fs !! p with Some _ => true | None => false end.

(** [open(p, 'r')] followed by [f.read()]. *)
Definition read_file (fs : FileSystem) (p : string) : result string :=
  match fs !! p with
  | None => inl (Exn OSError ("[Errno 2] No such file or directory: '" ++ p ++ "'"))
  | Some f =>
      match f_read_error f with
      | Some e => inl e
      | None => inr (f_content f)
      end
  end.

(** [open(p, 'w')] followed by [f.write(text)]: the whole file is
    replaced. *)
Definition write_file (fs : FileSystem) (p text : string) : result FileSystem :=
  match fs !! p with
  | None => inr (<[p := mkFile text None None]> fs)
  | Some f =>
      match f_write_error f with
      | Some e => inl e
      | None => inr (<[p := mkFile text (f_read_error f) None]> fs)
      end
  end.

End Files.

(* ===================================================================== *)
(** * textual-validator.py                                                *)
(* ===================================================================== *)

Module Validator.
Import PyAst Files.

(** ** Validation constants *)

Definition VALID_WIDGETS : gset string :=
  list_to_set
    [ "Button"; "Label"; "Input"; "Static"; "TextArea"; "Table";
      "DataTable"; "ListView"; "ListItem"; "Tabs"; "TabPane";
      "Switch"; "Checkbox"; "RadioSet"; "RadioButton"; "ProgressBar";
      "Select"; "OptionList"; "DirectoryTree"; "FileTree";
      "DataGrid"; "Tree"; "Markdown"; "Log"; "Pretty"; "Sparkline";
      "Gauge"; "Horizontal"; "Vertical"; "Container"; "ContentSwitcher";
      "Placeholder"; "LoadingIndicator"; "Collapsible"; "Badge";
      "Tag"; "Toast"; "ScreenSwitch"; "ContentTab" ].

Definition VALID_CONTAINERS : gset string :=
  list_to_set
    [ "Container"; "Horizontal"; "Vertical"; "Tabs"; "TabPane";
      "Collapsible"; "ContentSwitcher"; "ScreenSwitch" ].

Definition VALID_EVENTS : gset string :=
  list_to_set
    [ "Mount"; "Unmount"; "Key"; "Click"; "Button"; "Input";
      "ListView"; "Tab"; "Switch"; "CheckBox"; "Tree"; "Log";
      "Message"; "Event" ].

(** Old names, replaced with Footer/Header. *)
Definition DEPRECATED_WIDGETS : gset string :=
  list_to_set [ "FooterTui"; "HeaderTui" ].

(** [x in S] for a set of names. *)
Definition mem (x : string) (S : gset string) : bool := bool_decide (x ∈ S).

(** ** The validator object *)

(** The fields of [TextualValidator]; [console] is what [_log] has
    printed.  [file_path] is the path as a string. *)
Record TextualValidator := mkValidator {
  verbose : bool;
  fix_enabled : bool;
  errors : list string;
  warnings : list string;
  suggestions : list string;
  fixes_applied : list string;
  ast_tree : option ast;
  file_path : option string;
  console : list string
}.

(** [TextualValidator(verbose, fix)]. *)
Definition init (verbose fix_enabled : bool) : TextualValidator :=
  mkValidator verbose fix_enabled [] [] [] [] None None [].

Definition set_errors (l : list string) (v : TextualValidator) : TextualValidator :=
  mkValidator (verbose v) (fix_enabled v) l (warnings v) (suggestions v)
              (fixes_applied v) (ast_tree v) (file_path v) (console v).
Definition set_warnings (l : list string) (v : TextualValidator) : TextualValidator :=
  mkValidator (verbose v) (fix_enabled v) (errors v) l (suggestions v)
              (fixes_applied v) (ast_tree v) (file_path v) (console v).
Definition set_suggestions (l : list string) (v : TextualValidator) : TextualValidator :=
  mkValidator (verbose v) (fix_enabled v) (errors v) (warnings v) l
              (fixes_applied v) (ast_tree v) (file_path v) (console v).
Definition set_fixes_applied (l : list string) (v : TextualValidator) : TextualValidator :=
  mkValidator (verbose v) (fix_enabled v) (errors v) (warnings v) (suggestions v)
              l (ast_tree v) (file_path v) (console v).
Definition set_ast_tree (t : option ast) (v : TextualValidator) : TextualValidator :=
  mkValidator (verbose v) (fix_enabled v) (errors v) (warnings v) (suggestions v)
              (fixes_applied v) t (file_path v) (console v).
Definition set_file_path (p : option string) (v : TextualValidator) : TextualValidator :=
  mkValidator (verbose v) (fix_enabled v) (errors v) (warnings v) (suggestions v)
              (fixes_applied v) (ast_tree v) p (console v).
Definition set_console (l : list string) (v : TextualValidator) : TextualValidator :=
  mkValidator (verbose v) (fix_enabled v) (errors v) (warnings v) (suggestions v)
              (fixes_applied v) (ast_tree v) (file_path v) l.

(** ** Methods that mutate the validator and may raise *)

Definition M (A : Type) : Type := TextualValidator -> TextualValidator * result A.

Definition ret {A} (a : A) : M A := fun v => (v, inr a).
Definition raise {A} (e : exn) : M A := fun v => (v, inl e).
Definition bind {A B} (m : M A) (k : A -> M B) : M B :=
  fun v => match m v with
           | (v', inr a) => k a v'
           | (v', inl e) => (v', inl e)
           end.
Definition get : M TextualValidator := fun v => (v, inr v).
Definition modify (f : TextualValidator -> TextualValidator) : M unit :=
  fun v => (f v, inr tt).

Notation "x <- m ;; k" := (bind m (fun x => k))
  (at level 100, m at next level, right associativity).
Notation "m ;; k" := (bind m (fun _ => k))
  (at level 100, right associativity).

Definition when (b : bool) (m : M unit) : M unit := if b then m else ret tt.

(** [for x in l: body(x)]. *)
Fixpoint for_each {A} (l : list A) (body : A -> M unit) : M unit :=
  match l with
  | [] => ret tt
  | x :: l' => body x ;; for_each l' body
  end.

(** A loop that updates a local variable. *)
Fixpoint fold_each {A S} (l : list A) (body : S -> A -> M S) (s : S) : M S :=
  match l with
  | [] => ret s
  | x :: l' => s' <- body s x ;; fold_each l' body s'
  end.

(** [self.errors.append(msg)] and its siblings. *)
Definition add_error (msg : string) : M unit :=
  modify (fun v => set_errors (errors v ++ [msg]) v).
Definition add_warning (msg : string) : M unit :=
  modify (fun v => set_warnings (warnings v ++ [msg]) v).
Definition add_suggestion (msg : string) : M unit :=
  modify (fun v => set_suggestions (suggestions v ++ [msg]) v).

Definition _log (message : string) : M unit :=
  modify (fun v => if verbose v then set_console (console v ++ [("  ✓ " ++ message)%string]) v
                   else v).

(** The guard [if not self.ast_tree: return] that opens every pass. *)
Definition with_tree (pass : ast -> M unit) : M unit :=
  v <- get ;;
  match ast_tree v with
  | None => ret tt
  | Some tree => pass tree
  end.

(** ** Import check *)

(** [alias.name] for the entries of an import statement. *)
Definition alias_names (names : list ast) : list string :=
  omap (fun n => match n with alias name _ => Some name | _ => None end) names.

(** One iteration of the loop that fills the local set [imports]. *)
Definition collect_import (imports : gset string) (node : ast) : gset string :=
  match node with
  | ImportFrom (Some module) names =>
      if PyStr.contains "textual" module
      then imports ∪ list_to_set (alias_names names)
      else imports
  | Import_ names => imports ∪ list_to_set (alias_names names)
  | _ => imports
  end.

Definition missing_import_error : string :=
  "Missing required import: from textual.app import App".

Definition _validate_imports : M unit :=
  with_tree (fun tree =>
    let imports := fold_left collect_import (walk tree) ∅ in
    when (negb (mem "App" imports) && negb (mem "app" imports))
         (add_error missing_import_error) ;;
    when (negb (mem "ComposeResult" imports) && negb (mem "compose_result" imports))
         (add_warning "Consider importing ComposeResult for type hints") ;;
    _log "Validated imports").

(** ** Class structure *)

(** The loop over [node.bases], which stops at the first base that marks
    the class as an application class.  Only [ast.Attribute] bases are
    looked at. *)
Fixpoint has_app_base (bases : list ast) : bool :=
  match bases with
  | [] => false
  | Attribute value attr :: rest =>
      if match value with Name id => String.eqb id "App" | _ => false end then true
      else if String.eqb attr "App" then true
      else has_app_base rest
  | _ :: rest => has_app_base rest
  end.

Definition is_app_class (node : ast) : bool :=
  match node with
  | ClassDef _ bases _ _ _ => has_app_base bases
  | _ => false
  end.

Definition _check_return_annotation (returns : option ast) (expected : string) : bool :=
  match returns with
  | None => false
  | Some (Name id) => String.eqb id expected
  | Some _ => false
  end.

Definition is_none {A} (o : option A) : bool :=
  match o with None => true | Some _ => false end.

(** The body of the loop of [_validate_app_methods]; the local variable
    threaded through is [has_compose]. *)
Definition check_app_method (cname : string) (has_compose : bool) (node : ast) : M bool :=
  match node with
  | FunctionDef name _ _ _ _ _ returns =>
      if String.eqb name "compose" then
        when (is_none returns)
             (add_warning ("Method 'compose' in " ++ cname ++
                           " should have return type hint (ComposeResult)")) ;;
        when (negb (_check_return_annotation returns "ComposeResult"))
             (add_warning ("Method 'compose' in " ++ cname ++
                           " should return ComposeResult")) ;;
        ret true
      else if String.eqb name "on_mount" then ret has_compose
      else if String.eqb name "on_key" then
        add_suggestion ("Consider using BINDINGS instead of on_key in " ++ cname) ;;
        ret has_compose
      else ret has_compose
  | _ => ret has_compose
  end.

Definition _validate_app_methods (app_class : ast) : M unit :=
  match app_class with
  | ClassDef cname _ _ body _ =>
      has_compose <- fold_each body (check_app_method cname) false ;;
      when (negb has_compose)
           (add_error ("App class " ++ cname ++ " is missing 'compose' method")) ;;
      _log ("Validated methods for " ++ cname)
  | _ => ret tt
  end.

Definition no_app_class_error : string := "No class inheriting from App found".

Definition _validate_class_structure : M unit :=
  with_tree (fun tree =>
    let app_classes := List.filter is_app_class (walk tree) in
    match app_classes with
    | [] => add_error no_app_class_error
    | _ =>
        for_each app_classes _validate_app_methods ;;
        _log ("Validated " ++ PyStr.of_nat (length app_classes) ++ " App class(es)")
    end).

(** ** Widget usage *)

Definition deprecated_widget_error (attr : string) : string :=
  "Deprecated widget '" ++ attr ++ "' found. Use '" ++ attr ++ "' replacement instead".

(** The body of the loop of [_validate_widgets]; the local variable is
    the dictionary [widget_usage]. *)
Definition check_widget_node (widget_usage : gmap string nat) (node : ast)
  : M (gmap string nat) :=
  match node with
  | Attribute (Name widget_name) attr =>
      let widget_usage :=
        if mem attr VALID_WIDGETS
        then <[widget_name := default 0 (widget_usage !! widget_name) + 1]> widget_usage
        else widget_usage in
      when (mem attr DEPRECATED_WIDGETS) (add_error (deprecated_widget_error attr)) ;;
      ret widget_usage
  | _ => ret widget_usage
  end.

Definition sum_values (m : gmap string nat) : nat :=
  map_fold (fun _ n acc => n + acc) 0 m.

Definition _validate_widgets : M unit :=
  with_tree (fun tree =>
    widget_usage <- fold_each (walk tree) check_widget_node ∅ ;;
    _log ("Validated " ++ PyStr.of_nat (sum_values widget_usage) ++ " widget(s)")).

(** ** Layout *)

Definition is_yield (n : ast) : bool :=
  match n with Yield _ => true | _ => false end.

Definition is_compose_def (n : ast) : bool :=
  match n with
  | FunctionDef name _ _ _ _ _ _ => String.eqb name "compose"
  | _ => false
  end.

Definition _check_widget_in_yield (node : ast) : M unit :=
  match node with
  | Call _ (Attribute _ widget_name) _ _ =>
      if mem widget_name VALID_CONTAINERS then ret tt
      else if negb (mem widget_name VALID_WIDGETS) && negb (mem widget_name VALID_CONTAINERS)
      then add_warning ("Unknown widget or container: " ++ widget_name)
      else ret tt
  | _ => ret tt
  end.

Definition _validate_layouts : M unit :=
  with_tree (fun tree =>
    let yield_statements :=
      match find is_compose_def (walk tree) with
      | Some node => List.filter is_yield (walk node)
      | None => []
      end in
    when (match yield_statements with [] => true | _ => false end)
         (add_warning "No yield statements found in compose method") ;;
    for_each yield_statements (fun yield_node =>
      match yield_node with
      | Yield (Some value) => _check_widget_in_yield value
      | _ => ret tt
      end) ;;
    _log "Validated layout structure").

(** ** Event handlers *)

(** [d[k] = v] on a dictionary kept in insertion order. *)
Fixpoint dict_set (k v : string) (d : list (string * string)) : list (string * string) :=
  match d with
  | [] => [(k, v)]
  | (k', v') :: d' => if String.eqb k' k then (k, v) :: d' else (k', v') :: dict_set k v d'
  end.

Definition underscore : ascii := ascii_of_nat 95.

(** The body of the first loop of [_validate_event_handlers]; the local
    variable is the dictionary [event_handlers]. *)
Definition check_handler_node (event_handlers : list (string * string)) (node : ast)
  : M (list (string * string)) :=
  match node with
  | FunctionDef name _ fargs _ _ _ _ =>
      if PyStr.startswith "on_" name then
        let parts := PyStr.split underscore (PyStr.drop 3 name) in
        let event_handlers :=
          match parts with
          | event_type :: _ :: _ => dict_set name event_type event_handlers
          | _ => event_handlers
          end in
        when (match fargs with [] => true | _ => false end)
             (add_warning ("Event handler '" ++ name ++ "' should have event parameter")) ;;
        ret event_handlers
      else ret event_handlers
  | _ => ret event_handlers
  end.

Definition _validate_event_handlers : M unit :=
  with_tree (fun tree =>
    event_handlers <- fold_each (walk tree) check_handler_node [] ;;
    for_each event_handlers (fun '(handler, event_type) =>
      when (negb (mem event_type VALID_EVENTS))
           (add_warning ("Unknown event type '" ++ event_type ++
                         "' in handler '" ++ handler ++ "'"))) ;;
    _log ("Validated " ++ PyStr.of_nat (length event_handlers) ++ " event handler(s)")).

(** ** Style blocks *)

Definition open_brace : ascii := ascii_of_nat 123.
Definition close_brace : ascii := ascii_of_nat 125.

Definition unclosed_block_error (i : nat) : string :=
  "Unclosed CSS block starting at line " ++ PyStr.of_nat i.
Definition mismatched_braces_error (i : nat) : string :=
  "Mismatched braces in CSS at line " ++ PyStr.of_nat i.
Definition css_import_error (i : nat) : string :=
  "CSS import statement found at line " ++ PyStr.of_nat i ++ " (not supported)".

(** The body of the loop over [enumerate(lines, 1)]. *)
Definition check_css_line (entry : nat * string) : M unit :=
  let '(i, line) := entry in
  let line := PyStr.strip line in
  if String.eqb line EmptyString || PyStr.startswith "/*" line then ret tt
  else
    when (PyStr.contains "{" line && negb (PyStr.contains "}" line))
         (add_error (unclosed_block_error i)) ;;
    when (negb (Nat.eqb (PyStr.count open_brace line) (PyStr.count close_brace line)))
         (add_error (mismatched_braces_error i)) ;;
    when (PyStr.contains "import" (PyStr.lower line))
         (add_error (css_import_error i)).

(** [enumerate(l, 1)]. *)
Definition enumerate1 {A} (l : list A) : list (nat * A) := combine (seq 1 (length l)) l.

(** [css] is the value of the assigned constant; [css.split] exists only
    on strings and byte strings, and the latter rejects a [str]
    separator. *)
Definition _validate_css_content (css : constant) : M unit :=
  match css with
  | CStr css =>
      for_each (enumerate1 (PyStr.split PyStr.newline css)) check_css_line ;;
      when (negb (PyStr.contains "quantum:" css) && negb (PyStr.contains "dark:" css))
           (add_warning "Consider defining 'quantum' or 'dark' theme variants")
  | CBytes _ => raise (Exn TypeError "a bytes-like object is required, not 'str'")
  | CNonStr tyname => raise (no_attribute tyname "split")
  end.

(** The body of the loop that fills [css_strings]. *)
Definition collect_css (css_strings : list constant) (node : ast) : M (list constant) :=
  match node with
  | Assign [] _ => raise (Exn IndexError "list index out of range")
  | Assign (Name id :: _) (Constant value) =>
      if String.eqb id "CSS" then ret (css_strings ++ [value]) else ret css_strings
  | _ => ret css_strings
  end.

Definition _validate_css : M unit :=
  with_tree (fun tree =>
    css_strings <- fold_each (walk tree) collect_css [] ;;
    for_each css_strings _validate_css_content ;;
    _log "Validated CSS").

(** ** Best practices *)

Definition yield_warning : string :=
  "compose method should yield at least Header and Footer".

Definition _check_compose_best_practices (compose_node : ast) : M unit :=
  match compose_node with
  | FunctionDef _ _ _ _ _ _ returns =>
      when (is_none returns) (add_suggestion "Add return type hint to compose method") ;;
      let yield_count := length (List.filter is_yield (walk compose_node)) in
      when (Nat.ltb yield_count 2) (add_warning yield_warning)
  | _ => ret tt
  end.

Definition _validate_best_practices : M unit :=
  with_tree (fun tree =>
    for_each (walk tree) (fun node =>
      if is_compose_def node then _check_compose_best_practices node else ret tt)).

(** ** Performance *)

(** The body of the loop of [_validate_performance]; the local variable
    is [query_count].  [node.func.value.id] exists only on a [Name]. *)
Definition check_query_node (query_count : nat) (node : ast) : M nat :=
  match node with
  | Call _ (Attribute value attr) _ _ =>
      if String.eqb attr "query_one" then
        match value with
        | Name id =>
            when (String.eqb id "self")
                 (add_suggestion
                    "Consider caching query_one results to avoid repeated DOM queries") ;;
            ret (S query_count)
        | _ => raise (no_attribute (class_name value) "id")
        end
      else ret query_count
  | _ => ret query_count
  end.

Definition _validate_performance : M unit :=
  with_tree (fun tree =>
    query_count <- fold_each (walk tree) check_query_node 0 ;;
    when (Nat.ltb 5 query_count)
         (add_warning ("Found " ++ PyStr.of_nat query_count ++
                       " query_one calls. Consider caching results.")) ;;
    _log "Validated performance").

(** ** Auto-fix *)

(** The string of one newline. *)
Definition nlsep : string := String PyStr.newline EmptyString.

Definition import_prefix : string := "from textual.app import".

(** Index of the first line that starts with the import prefix. *)
Fixpoint find_import_line (i : nat) (lines : list string) : option nat :=
  match lines with
  | [] => None
  | line :: rest =>
      if PyStr.startswith import_prefix line then Some i
      else find_import_line (S i) rest
  end.

Definition _fix_missing_imports (content : string) : string :=
  let lines := PyStr.split PyStr.newline content in
  let lines :=
    match find_import_line 0 lines with
    | None => "from textual.app import App, ComposeResult" :: lines
    | Some idx =>
        match lines !! idx with
        | Some line =>
            if negb (PyStr.contains "ComposeResult" line)
            then <[idx := (PyStr.replace import_prefix import_prefix line
                            ++ ", ComposeResult")%string]> lines
            else lines
        | None => lines
        end
    end in
  PyStr.join nlsep lines.

Definition fix_record : string := "Fixed missing imports".
Definition rerun_warning : string := "Auto-fixes applied. Re-run validation.".

(** The loop over [self.errors] of [_attempt_fixes]. *)
Definition apply_fixes (errs : list string) (content : string) : string :=
  fold_left (fun content error =>
               if PyStr.contains "Missing required import" error
               then _fix_missing_imports content else content)
            errs content.

Definition failed_fix_error (e : exn) : string :=
  "Failed to apply fixes: " ++ exn_msg e.

Definition _attempt_fixes (v : TextualValidator) (fs : FileSystem)
  : TextualValidator * FileSystem :=
  match file_path v with
  | None => (v, fs)
  | Some p =>
      match read_file fs p with
      | inl e => (set_errors (errors v ++ [failed_fix_error e]) v, fs)
      | inr original_content =>
          let content := apply_fixes (errors v) original_content in
          if negb (String.eqb content original_content) then
            match write_file fs p content with
            | inl e => (set_errors (errors v ++ [failed_fix_error e]) v, fs)
            | inr fs' =>
                let v := set_fixes_applied (fixes_applied v ++ [fix_record]) v in
                let v := set_errors [] v in
                let v := set_warnings (warnings v ++ [rerun_warning]) v in
                (v, fs')
            end
          else (v, fs)
      end
  end.

(** ** validate_file *)

(** The eight passes, in the order [validate_file] runs them. *)
Definition run_passes : M unit :=
  _validate_imports ;;
  _validate_class_structure ;;
  _validate_widgets ;;
  _validate_layouts ;;
  _validate_event_handlers ;;
  _validate_css ;;
  _validate_best_practices ;;
  _validate_performance.

(** The two [except] clauses of [validate_file]. *)
Definition on_exception (e : exn) (v : TextualValidator) : TextualValidator :=
  match exn_cls e with
  | SyntaxError => set_errors (errors v ++ ["Syntax error: " ++ exn_msg e]%string) v
  | _ => set_errors (errors v ++ ["Validation error: " ++ exn_msg e]%string) v
  end.

Section ValidateFile.

(** [ast.parse]: a tree, or the exception it raises. *)
Variable parse : string -> result ast.

Definition validate_file (v : TextualValidator) (path : string) (fs : FileSystem)
  : bool * TextualValidator * FileSystem :=
  let v := set_file_path (Some path) v in
  if negb (exists_ fs path) then
    (false, set_errors (errors v ++ ["File not found: " ++ path]%string) v, fs)
  else
    match read_file fs path with
    | inl e => (false, on_exception e v, fs)
    | inr content =>
        match parse content with
        | inl e => (false, on_exception e v, fs)
        | inr tree =>
            match run_passes (set_ast_tree (Some tree) v) with
            | (v, inl e) => (false, on_exception e v, fs)
            | (v, inr _) =>
                let '(v, fs) :=
                  if fix_enabled v && negb (Nat.eqb (length (errors v)) 0)
                  then _attempt_fixes v fs else (v, fs) in
                (Nat.eqb (length (errors v)) 0, v, fs)
            end
        end
    end.

End ValidateFile.

(** ** Report *)

Definition rule : string :=
  "======================================================================".

Definition PERFORMANCE_TIPS : list string :=
  [ "Use 'content-align' instead of nested containers for alignment";
    "Cache frequently accessed widgets with query_one()";
    "Use 'disabled' attribute instead of removing/re-adding widgets";
    "Minimize DOM queries by storing widget references";
    "Use CSS classes for common styling instead of inline styles";
    "Consider using 'reactive' for frequently changing values";
    "Use 'Lazy' widgets for large lists or grids" ].

(** The numbered entries of one channel. *)
Definition numbered (l : list string) : list string :=
  map (fun '(i, x) => ("  " ++ PyStr.of_nat i ++ ". " ++ x)%string) (enumerate1 l).

(** The section of the report for one channel: nothing when it is
    empty. *)
Definition report_section (title : string) (l : list string) : list string :=
  match l with
  | [] => []
  | _ => (nlsep ++ title ++ " (" ++ PyStr.of_nat (length l) ++ "):")%string :: numbered l
  end.

(** The verdict line: passed exactly when [self.errors] is empty. *)
Definition verdict (v : TextualValidator) : string :=
  match errors v with
  | [] => "✅ VALIDATION PASSED"
  | _ => "❌ VALIDATION FAILED (" ++ PyStr.of_nat (length (errors v)) ++ " error(s))"
  end.

Definition slash : ascii := ascii_of_nat 47.

(** [Path(p).name] for a path that does not end with a separator. *)
Definition path_name (p : string) : string := List.last (PyStr.split slash p) p.

(** [print_report]: the argument of each [print], in order. *)
Definition print_report (v : TextualValidator) : list string :=
  [ (nlsep ++ rule)%string;
    ("VALIDATION REPORT: "
       ++ match file_path v with Some p => path_name p | None => "N/A" end)%string;
    rule ]
  ++ report_section "❌ ERRORS" (errors v)
  ++ report_section "⚠️  WARNINGS" (warnings v)
  ++ report_section "💡 SUGGESTIONS" (suggestions v)
  ++ report_section "🔧 FIXES APPLIED" (fixes_applied v)
  ++ [ (nlsep ++ rule)%string; verdict v; (rule ++ nlsep)%string ]
  ++ match suggestions v with
     | [] => []
     | _ => "📋 PERFORMANCE TIPS:"
            :: map (fun tip => ("  • " ++ tip)%string) (firstn 5 PERFORMANCE_TIPS)
            ++ [EmptyString]
     end.

(** ** Derived notions used to state the results *)

(** The deprecated identifiers the widget pass reports among [nodes]: the
    attribute of every [name.attr] whose [attr] is in
    [DEPRECATED_WIDGETS], in order. *)
Definition deprecated_attributes (nodes : list ast) : list string :=
  flat_map (fun node =>
              match node with
              | Attribute (Name _) attr =>
                  if mem attr DEPRECATED_WIDGETS then [attr] else []
              | _ => []
              end)
           nodes.

(** ** The fields no pass writes *)

(** [v'] differs from [v] at most in the three issue channels and the
    console. *)
Definition frame (v v' : TextualValidator) : Prop :=
  verbose v' = verbose v /\ fix_enabled v' = fix_enabled v
  /\ fixes_applied v' = fixes_applied v /\ ast_tree v' = ast_tree v
  /\ file_path v' = file_path v.

Definition preserves {A} (m : M A) : Prop := forall v, frame v (fst (m v)).

End Validator.

(* ===================================================================== *)
(** * textual-debug.py                                                    *)
(* ===================================================================== *)

Module Debug.
Import PyAst Files.

Definition nl : string := String PyStr.newline EmptyString.

(** ** Data classes *)

Record DebugConfig := mkConfig {
  trace_events : bool;
  trace_widgets : bool;
  trace_layout : bool;
  profile_performance : bool;
  log_file : option string;
  verbose : bool
}.

(** The fields of the data class [WidgetInfo], prefixed with [w_]. *)
Record WidgetInfo := mkWidget {
  w_name : string;
  w_type : string;
  w_id : option string;
  w_classes : list string;
  w_parent : option string;
  w_children : list string;
  w_size : option (Z * Z);
  w_visible : bool
}.

(** An event object as the tracer sees it: [str(event)] and
    [type(event).__name__]. *)
Record Event := mkEvent { ev_str : string; ev_type : string }.

(** The data class [EventInfo]; the clock is read in rational seconds. *)
Record EventInfo := mkEventInfo {
  event_type : string;
  timestamp : Q;
  source : string;
  target : string;
  data : list (string * string)
}.

(** ** Walking the live widget tree *)

(** A live object as the walk sees it by reflection: the name of its
    class, its identity [id(node)], and what reading it gives.
    - [Live]: every read returns.  [attr_id] is
      [getattr(node, 'id', None)], [attr_classes] is
      [list(getattr(node, 'classes', []))], and [nodes] is the content of
      [node._nodes], or [None] when the object has no such attribute.
    - [Unreadable]: reading [id] or [classes] raises [e], before the
      entry of the object is built.
    - [Interrupted]: the entry has been appended; [hasattr(node,
      '_nodes')], the read of [node._nodes] or its iteration raises [e]
      once the children [seen] have been visited. *)
Inductive LiveNode :=
| Live (cls : string) (ident : nat) (attr_id : option string)
       (attr_classes : list string) (nodes : option (list LiveNode))
| Unreadable (cls : string) (ident : nat) (e : exn)
| Interrupted (cls : string) (ident : nat) (attr_id : option string)
              (attr_classes : list string) (seen : list LiveNode) (e : exn).

(** [type(node).__name__] and [id(node)], which never raise. *)
Definition node_cls (node : LiveNode) : string :=
  match node with
  | Live cls _ _ _ _ | Unreadable cls _ _ | Interrupted cls _ _ _ _ _ => cls
  end.

Definition node_ident (node : LiveNode) : nat :=
  match node with
  | Live _ ident _ _ _ | Unreadable _ ident _ | Interrupted _ ident _ _ _ _ => ident
  end.

(** [f"{widget_type}_{id(node)}"]. *)
Definition widget_name_of (cls : string) (ident : nat) : string :=
  cls ++ "_" ++ PyStr.of_nat ident.

(** [_extract_widgets_from_node].  [widget_info] is appended first and its
    [children] list is extended, for each child in turn, with the name of
    every entry the recursive call returned.  The whole body is inside
    [try]: an exception ends the walk of this object, and the function
    returns what [widgets] holds at that point, nothing when the entry had
    not been appended yet, the entry and the entries of the children
    visited so far otherwise.  The [except] clause prints the object and
    the exception, which is taken to return, so that no exception leaves
    the function; what it prints is not part of the result. *)
Fixpoint _extract_widgets_from_node (node : LiveNode) (parent : option string)
  : list WidgetInfo :=
  match node with
  | Live widget_type ident attr_id attr_classes nodes =>
      let widget_name := widget_name_of widget_type ident in
      let child_widgets :=
        match nodes with
        | None => []
        | Some l =>
            (fix over (l : list LiveNode) : list WidgetInfo :=
               match l with
               | [] => []
               | child :: l' =>
                   _extract_widgets_from_node child (Some widget_name) ++ over l'
               end) l
        end in
      mkWidget widget_name widget_type attr_id attr_classes parent
               (map w_name child_widgets) None true
      :: child_widgets
  | Unreadable _ _ _ => []
  | Interrupted widget_type ident attr_id attr_classes seen _ =>
      let widget_name := widget_name_of widget_type ident in
      let child_widgets :=
        (fix over (l : list LiveNode) : list WidgetInfo :=
           match l with
           | [] => []
           | child :: l' =>
               _extract_widgets_from_node child (Some widget_name) ++ over l'
           end) seen in
      mkWidget widget_name widget_type attr_id attr_classes parent
               (map w_name child_widgets) None true
      :: child_widgets
  end.

(** The widgets the loop over [node._nodes] collects for the children
    [l] of the widget named [widget_name]. *)
Definition over (widget_name : string) (l : list LiveNode) : list WidgetInfo :=
  flat_map (fun child => _extract_widgets_from_node child (Some widget_name)) l.

(** What [get_widget_tree] reads from the application: whether
    [_context] exists and is truthy, and the value of the [screen]
    property or the exception it raises. *)
Record AppInstance := mkApp {
  has_context : bool;
  screen : result LiveNode
}.

Definition get_widget_tree (app_instance : AppInstance) : list WidgetInfo :=
  if has_context app_instance then
    match screen app_instance with
    | inr screen => _extract_widgets_from_node screen None
    | inl _ => []
    end
  else [].

(** ** Rendering the tree *)

Definition truthy (o : option string) : bool :=
  match o with
  | Some s => negb (String.eqb s EmptyString)
  | None => false
  end.

Fixpoint repeat_string (s : string) (n : nat) : string :=
  match n with O => EmptyString | S n' => s ++ repeat_string s n' end.

Definition render_line (widget : WidgetInfo) (depth : nat) : string :=
  repeat_string "  " depth ++ "├─ " ++ w_type widget
  ++ (if truthy (w_id widget) then " (id: " ++ default EmptyString (w_id widget) ++ ")"
      else EmptyString)
  ++ (match w_classes widget with
      | [] => EmptyString
      | cs => " [classes: " ++ PyStr.join ", " cs ++ "]"
      end)
  ++ (if w_visible widget then EmptyString else " (hidden)").

(** [{w.name: w for w in widgets}]: a later widget replaces an earlier one
    of the same name. *)
Definition widget_map_of (widgets : list WidgetInfo) : gmap string WidgetInfo :=
  fold_left (fun m w => <[w_name w := w]> m) widgets ∅.

(** The inner function [render_widget].  [levels] is the number of levels
    left before the test [depth > max_depth] holds, that is
    [max_depth + 1 - depth] when this is positive and none otherwise. *)
Fixpoint render_widget (widget_map : gmap string WidgetInfo) (levels : nat)
         (widget : WidgetInfo) (depth : nat) : list string :=
  match levels with
  | O => []
  | S levels' =>
      render_line widget depth ::
      flat_map (fun child_name =>
                  match widget_map !! child_name with
                  | Some child => render_widget widget_map levels' child (S depth)
                  | None => []
                  end)
               (w_children widget)
  end.

Definition is_root (widget_map : gmap string WidgetInfo) (w : WidgetInfo) : bool :=
  match w_parent w with
  | None => true
  | Some p => match widget_map !! p with Some _ => false | None => true end
  end.

(** [format_widget_tree(widgets, max_depth)].  [max_depth] is an integer:
    with a negative one the first call of [render_widget], at depth 0,
    returns at once. *)
Definition format_widget_tree (widgets : list WidgetInfo) (max_depth : Z) : string :=
  match widgets with
  | [] => "No widgets found"
  | _ =>
      let widget_map := widget_map_of widgets in
      let root_widgets := List.filter (is_root widget_map) widgets in
      PyStr.join nl
        ([ "WIDGET TREE"; Validator.rule ]
         ++ flat_map (fun w => render_widget widget_map (Z.to_nat (max_depth + 1)) w 0)
                     root_widgets
         ++ [ Validator.rule ])
  end.

(** ** Layout analysis *)

Definition container_type_names : list string :=
  [ "Container"; "Horizontal"; "Vertical"; "Grid" ].

(** [s == w] for a string and a [WidgetInfo]: a data class instance
    equals only instances of its own class. *)
Definition str_eq_widget (s : string) (w : WidgetInfo) : bool := false.

(** [l > n] for a list and an integer.  Python 3 defines no order between
    the two types: both reflected comparisons decline and the operator
    raises. *)
Definition list_int_order_error : exn :=
  Exn TypeError "'>' not supported between instances of 'list' and 'int'".

Definition list_gt_int {A} (l : list A) (n : Z) : result bool :=
  inl list_int_order_error.

(** [d[k] = d.get(k, 0) + 1] on a dictionary kept in insertion order. *)
Fixpoint dict_incr (k : string) (d : list (string * nat)) : list (string * nat) :=
  match d with
  | [] => [(k, 1)]
  | (k', n) :: d' => if String.eqb k' k then (k', S n) :: d' else (k', n) :: dict_incr k d'
  end.

(** The [while parent:] loop: one more level per ancestor found by name.
    [None] when the loop is still running after [fuel] iterations. *)
Fixpoint climb (fuel : nat) (widgets : list WidgetInfo) (parent : option string)
         (depth : nat) : option nat :=
  if truthy parent then
    match fuel with
    | O => None
    | S fuel' =>
        let parent_widget :=
          find (fun w => String.eqb (w_name w) (default EmptyString parent)) widgets in
        climb fuel' widgets
              (match parent_widget with Some pw => w_parent pw | None => None end)
              (S depth)
    end
  else Some depth.

(** The loop that computes [max_depth]. *)
Definition max_nesting_depth (fuel : nat) (widgets : list WidgetInfo) : option nat :=
  fold_left (fun acc widget =>
               match acc with
               | None => None
               | Some max_depth =>
                   if truthy (w_parent widget) then
                     match climb fuel widgets (w_parent widget) 1 with
                     | Some depth => Some (Nat.max max_depth depth)
                     | None => None
                     end
                   else Some max_depth
               end)
            widgets (Some 0).

Definition deep_nesting_warning : string :=
  nl ++ "⚠️  WARNING: Deep nesting may impact performance".

(** The part of [analyze_layout] that follows the comparison of
    [widgets_without_containers] with 5; [many] is the value of that
    comparison. *)
Definition layout_report (fuel : nat) (widgets containers : list WidgetInfo)
           (lines : list string) (many : bool) : option string :=
  let lines :=
    if many
    then lines ++ [nl ++ "⚠️  WARNING: Many widgets without containers may cause layout issues"]%string
    else lines in
  let container_types := fold_left (fun d c => dict_incr (w_type c) d) containers [] in
  let lines := lines ++ [nl ++ "Container distribution:"]%string in
  let lines :=
    lines ++ map (fun '(container_type, count) =>
                    ("  " ++ container_type ++ ": " ++ PyStr.of_nat count)%string)
                 container_types in
  match max_nesting_depth fuel widgets with
  | None => None
  | Some max_depth =>
      let lines := lines ++ [nl ++ "Maximum nesting depth: " ++ PyStr.of_nat max_depth]%string in
      let lines := if Nat.ltb 5 max_depth then lines ++ [deep_nesting_warning] else lines in
      let lines :=
        lines ++ [ (nl ++ "Layout recommendations:")%string;
                   "  • Use Horizontal/Vertical for simple layouts";
                   "  • Use Grid for complex layouts";
                   "  • Avoid excessive nesting (>5 levels)";
                   "  • Consider using CSS grid for 2D layouts";
                   "  • Use content-align for simple alignment";
                   Validator.rule ] in
      Some (PyStr.join nl lines)
  end.

(** [analyze_layout]: the exception it raises, or the report; [inr None]
    when a [while] loop is still running after [fuel] iterations. *)
Definition analyze_layout (fuel : nat) (widgets : list WidgetInfo)
  : result (option string) :=
  let lines := [ "LAYOUT ANALYSIS"; Validator.rule ] in
  let containers :=
    List.filter (fun w => existsb (String.eqb (w_type w)) container_type_names) widgets in
  let widgets_without_containers :=
    List.filter (fun w => negb (existsb (str_eq_widget (w_type w)) containers)) widgets in
  let lines :=
    lines ++ [ (nl ++ "Total widgets: " ++ PyStr.of_nat (length widgets))%string;
               ("Containers: " ++ PyStr.of_nat (length containers))%string;
               ("Regular widgets: " ++ PyStr.of_nat (length widgets_without_containers))%string ] in
  match list_gt_int widgets_without_containers 5 with
  | inl e => inl e
  | inr many => inr (layout_report fuel widgets containers lines many)
  end.

(** ** Static analysis of a file *)

Definition static_widget_types : list string :=
  [ "Container"; "Button"; "Label"; "Input"; "Static" ].

Definition extract_widgets_from_ast (ast_tree : ast) : list WidgetInfo :=
  flat_map (fun node =>
              match node with
              | Call lineno (Attribute _ widget_type) _ _ =>
                  if existsb (String.eqb widget_type) static_widget_types
                  then [ mkWidget (widget_type ++ "_" ++ PyStr.of_nat lineno) widget_type
                                  None [] None [] None true ]
                  else []
              | _ => []
              end)
           (walk ast_tree).

Definition analysis_error (e : exn) : string := "Error analyzing app: " ++ exn_msg e.

Section AnalyzeAppFile.

(** [ast.parse], and what the profiling step prints: it loads and runs
    the application, which is outside this model. *)
Variable parse : string -> result ast.
Variable profile_step : list string.

(** [analyze_app_file]: what it prints on standard output, each [print]
    one entry.  [None] when a loop is still running after [fuel]
    iterations. *)
Definition analyze_app_file (fuel : nat) (app_file : string) (config : DebugConfig)
           (fs : FileSystem) : option (list string) :=
  match read_file fs app_file with
  | inl e => Some [analysis_error e]
  | inr content =>
      match parse content with
      | inl e => Some [analysis_error e]
      | inr ast_tree =>
          let widgets := extract_widgets_from_ast ast_tree in
          let out :=
            if trace_widgets config || verbose config
            then [format_widget_tree widgets 5] else [] in
          let profiled (out : list string) :=
            if profile_performance config then out ++ profile_step else out in
          if trace_layout config || verbose config then
            match analyze_layout fuel widgets with
            | inl e => Some (out ++ [analysis_error e])
            | inr None => None
            | inr (Some layout_analysis) =>
                Some (profiled (out ++ [nl ++ layout_analysis]%string))
            end
          else Some (profiled out)
      end
  end.

End AnalyzeAppFile.

(** ** The debugger object and event tracing *)

Section Tracing.

(** The state of the application that its handlers read and update, and
    the values they return. *)
Context {St Ret : Type}.

(** A positional argument of a call: a name or an event object. *)
Inductive arg := AStr (s : string) | AEvent (e : Event).

(** What [getattr(app, name)] can give: a value that is not callable, a
    bound method of the application, or the bound method that
    [_setup_event_tracing] installs, which is the closure [handler] of
    [make_traced_handler(name)] bound to the application with
    [__get__(self.app, type(self.app))]; [original] is
    [original_methods[name]].  The body of a [Callable] reads and updates
    the state of the application only: a method that calls another
    attribute of the application through [self] is outside this model. *)
Inductive attr :=
| Data
| Callable (f : list arg -> St -> St * result Ret)
| Traced (name : string) (original : attr).

(** The application instance: the name of its class, the attributes
    [dir] and [getattr] see, and its state. *)
Record App := mkLiveApp {
  app_cls : string;
  attrs : gmap string attr;
  app_state : St
}.

Record TextualDebugger := mkDebugger {
  app : App;
  config : DebugConfig;
  events_log : list EventInfo;
  widgets : list WidgetInfo;
  start_time : Q;
  dbg_console : list string
}.

(** [TextualDebugger._trace_event], a method of the debugger; [now] is
    the reading of [time.time()]. *)
Definition _trace_event (d : TextualDebugger) (now : Q) (event_type : string)
           (event : Event) : TextualDebugger :=
  let event_info :=
    mkEventInfo event_type (now - start_time d) (ev_str event) "app"
                [("type", ev_type event)] in
  mkDebugger (app d) (config d) (events_log d ++ [event_info]) (widgets d)
             (start_time d)
             (if verbose (config d)
              then dbg_console d ++ [("[EVENT] " ++ event_type ++ ": " ++ ev_str event)%string]
              else dbg_console d).

Definition callable (a : attr) : bool :=
  match a with Data => false | _ => true end.

Definition not_callable : exn := Exn TypeError "object is not callable".
Definition arity_error : exn :=
  Exn TypeError "handler() takes 2 positional arguments but a different number were given".

(** The call [self._trace_event(name, event)] inside [handler], once the
    attribute has been found on [self]. *)
Definition call_tracer (tracer : attr) (args : list arg) (s : St) : St * result Ret :=
  match tracer with
  | Data => (s, inl not_callable)
  | Callable f => f args s
  | Traced _ _ => (s, inl arity_error)
  end.

(** Calling an attribute of the application.  For the installed
    [handler(self, event)], [self] is the object the closure was bound
    to, the application: [self._trace_event] is looked up there, and
    only then is [original_methods[name](event)] called. *)
Fixpoint call (cls : string) (attrs : gmap string attr) (a : attr)
         (args : list arg) (s : St) : St * result Ret :=
  match a with
  | Data => (s, inl not_callable)
  | Callable f => f args s
  | Traced name original =>
      match args with
      | [event] =>
          match attrs !! "_trace_event" with
          | None => (s, inl (no_attribute cls "_trace_event"))
          | Some tracer =>
              match call_tracer tracer [AStr name; event] s with
              | (s', inl e) => (s', inl e)
              | (s', inr _) => call cls attrs original [event] s'
              end
          end
      | _ => (s, inl arity_error)
      end
  end.

(** [getattr(app, method_name)(event)]. *)
Definition dispatch (a : App) (method_name : string) (event : Event) : App * result Ret :=
  match attrs a !! method_name with
  | None => (a, inl (no_attribute (app_cls a) method_name))
  | Some m =>
      let '(s', r) := call (app_cls a) (attrs a) m [AEvent event] (app_state a) in
      (mkLiveApp (app_cls a) (attrs a) s', r)
  end.

(** The loop of [_setup_event_tracing]: every callable attribute whose
    name starts with [on_] is replaced by its traced handler.  Each
    iteration touches only its own name, so the order of [dir] does not
    matter. *)
Definition install_handlers (attrs : gmap string attr) : gmap string attr :=
  map_imap (fun method_name original_method =>
              Some (if PyStr.startswith "on_" method_name && callable original_method
                    then Traced method_name original_method
                    else original_method))
           attrs.

Definition _setup_event_tracing (d : TextualDebugger) : TextualDebugger :=
  if negb (trace_events (config d)) then d
  else
    mkDebugger (mkLiveApp (app_cls (app d)) (install_handlers (attrs (app d)))
                          (app_state (app d)))
               (config d) (events_log d) (widgets d) (start_time d) (dbg_console d).

(** A handler call on the application under the debugger: the event log
    belongs to the debugger and is reached only through
    [TextualDebugger._trace_event]. *)
Definition handle (d : TextualDebugger) (method_name : string) (event : Event)
  : TextualDebugger * result Ret :=
  let '(a', r) := dispatch (app d) method_name event in
  (mkDebugger a' (config d) (events_log d) (widgets d) (start_time d) (dbg_console d), r).

(** The traced handler as the specification describes it: the wrapper
    records an [EventInfo] stamped with the time since the session
    started, then delegates to the original method with the same event.
    [d] is the debugger before the handlers are installed. *)
Definition handle_as_specified (d : TextualDebugger) (now : Q) (method_name : string)
           (event : Event) : TextualDebugger * result Ret :=
  let d1 := _trace_event d now method_name event in
  let '(a', r) := dispatch (app d) method_name event in
  (mkDebugger a' (config d1) (events_log d1) (widgets d1) (start_time d1)
              (dbg_console d1), r).

End Tracing.

Arguments attr : clear implicits.
Arguments App : clear implicits.
Arguments TextualDebugger : clear implicits.

End Debug.

(* ===================================================================== *)
(** * Sample inputs                                                       *)
(* ===================================================================== *)

Module Samples.
Import PyAst Files Validator.

Definition line (s : string) : string := s ++ Debug.nl.

(** [yield Button(text)] as an expression statement on line [lineno]. *)
Definition yield_button (lineno : nat) (text : string) : ast :=
  Other "Expr" [Yield (Some (Call lineno (Name "Button") [Constant (CStr text)] []))].

Definition self_arg : ast := Other "arg" [].

(** The file of the specification's scenario:
<<
class MyApp(App):
  def compose(self): yield Button("x")
>> *)
Definition my_app : ast :=
  Module_
    [ ClassDef "MyApp" [Name "App"] []
        [ FunctionDef "compose" [] [self_arg] [] [yield_button 2 "x"] [] None ]
        [] ].

(** A file that passes with a warning:
<<
from textual.app import App, ComposeResult
import textual.app
class MyApp(textual.app.App):
  def compose(self) -> ComposeResult:
      yield Button("x")
>> *)
Definition passing_text : string :=
  line "from textual.app import App, ComposeResult"
  ++ line "import textual.app"
  ++ line "class MyApp(textual.app.App):"
  ++ line "    def compose(self) -> ComposeResult:"
  ++ line "        yield Button('x')".

Definition qualified_app_base : ast :=
  Attribute (Attribute (Name "textual") "app") "App".

Definition passing_tree : ast :=
  Module_
    [ ImportFrom (Some "textual.app") [alias "App" None; alias "ComposeResult" None];
      Import_ [alias "textual.app" None];
      ClassDef "MyApp" [qualified_app_base] []
        [ FunctionDef "compose" [] [self_arg] [] [yield_button 5 "x"] []
            (Some (Name "ComposeResult")) ]
        [] ].

(** A file whose only Error is the missing import, and which already has
    a line importing from [textual.app]:
<<
from textual.app import Screen
import textual.app
class MyApp(textual.app.App):
  def compose(self):
      yield Button('x')
      yield Button('y')
>> *)
Definition screen_text : string :=
  line "from textual.app import Screen"
  ++ line "import textual.app"
  ++ line "class MyApp(textual.app.App):"
  ++ line "    def compose(self):"
  ++ line "        yield Button('x')"
  ++ line "        yield Button('y')".

Definition screen_class : ast :=
  ClassDef "MyApp" [qualified_app_base] []
    [ FunctionDef "compose" [] [self_arg] []
        [yield_button 5 "x"; yield_button 6 "y"] [] None ]
    [].

Definition screen_tree : ast :=
  Module_
    [ ImportFrom (Some "textual.app") [alias "Screen" None];
      Import_ [alias "textual.app" None];
      screen_class ].

(** The same file after the repair: the first line has become
    [from textual.app import Screen, ComposeResult]. *)
Definition screen_fixed_text : string :=
  line "from textual.app import Screen, ComposeResult"
  ++ line "import textual.app"
  ++ line "class MyApp(textual.app.App):"
  ++ line "    def compose(self):"
  ++ line "        yield Button('x')"
  ++ line "        yield Button('y')".

Definition screen_fixed_tree : ast :=
  Module_
    [ ImportFrom (Some "textual.app") [alias "Screen" None; alias "ComposeResult" None];
      Import_ [alias "textual.app" None];
      screen_class ].

(** A file that imports [App] and defines no class:
<<
from textual.app import App
>> *)
Definition import_only_text : string := line "from textual.app import App".

Definition import_only_tree : ast :=
  Module_ [ ImportFrom (Some "textual.app") [alias "App" None] ].

(** [ast.parse] on the sample texts; any other text is rejected. *)
Definition parse_samples (text : string) : result ast :=
  if String.eqb text passing_text then inr passing_tree
  else if String.eqb text import_only_text then inr import_only_tree
  else if String.eqb text screen_text then inr screen_tree
  else if String.eqb text screen_fixed_text then inr screen_fixed_tree
  else inl (Exn SyntaxError "invalid syntax").

(** A file that uses a deprecated widget through its module:
<<
widgets.FooterTui()
>> *)
Definition deprecated_tree : ast :=
  Module_ [ Other "Expr" [Call 1 (Attribute (Name "widgets") "FooterTui") [] []] ].

(** [yield name()] as an expression statement on line [lineno]. *)
Definition yield_widget (lineno : nat) (name : string) : ast :=
  Other "Expr" [Yield (Some (Call lineno (Name name) [] []))].

(** A file that imports the two deprecated widgets and yields both, each
    written as a plain name:
<<
from textual.app import App, ComposeResult
from textual.widgets import FooterTui, HeaderTui
import textual.app
class MyApp(textual.app.App):
    def compose(self) -> ComposeResult:
        yield HeaderTui()
        yield FooterTui()
>> *)
Definition deprecated_names_text : string :=
  line "from textual.app import App, ComposeResult"
  ++ line "from textual.widgets import FooterTui, HeaderTui"
  ++ line "import textual.app"
  ++ line "class MyApp(textual.app.App):"
  ++ line "    def compose(self) -> ComposeResult:"
  ++ line "        yield HeaderTui()"
  ++ line "        yield FooterTui()".

Definition deprecated_names_tree : ast :=
  Module_
    [ ImportFrom (Some "textual.app") [alias "App" None; alias "ComposeResult" None];
      ImportFrom (Some "textual.widgets") [alias "FooterTui" None; alias "HeaderTui" None];
      Import_ [alias "textual.app" None];
      ClassDef "MyApp" [qualified_app_base] []
        [ FunctionDef "compose" [] [self_arg] []
            [yield_widget 6 "HeaderTui"; yield_widget 7 "FooterTui"] []
            (Some (Name "ComposeResult")) ]
        [] ].

(** [ast.parse] on that text and on the sample texts. *)
Definition parse_deprecated (text : string) : result ast :=
  if String.eqb text deprecated_names_text then inr deprecated_names_tree
  else parse_samples text.

(** The style block of the specification's scenario, assigned to [CSS]:
<<
CSS = 'Screen { background: red;'
>> *)
Definition unbalanced_css : string := "Screen { background: red;".

Definition unbalanced_tree : ast :=
  Module_ [ Assign [Name "CSS"] (Constant (CStr unbalanced_css)) ].

Definition plain_file (text : string) : File := mkFile text None None.

(** A fresh validator that has parsed [t]. *)
Definition with_tree_of (t : ast) : TextualValidator :=
  set_ast_tree (Some t) (init false false).

(** The validator with the fix option on, as the passes leave it on the
    file that only imports [App]. *)
Definition import_only_checked : TextualValidator :=
  fst (run_passes (set_ast_tree (Some import_only_tree)
                                (set_file_path (Some "app.py") (init false true)))).

Definition disk (text : string) : FileSystem := {[ "app.py" := plain_file text ]}.

(** A live screen that holds a container that holds a button. *)
Definition live_button : Debug.LiveNode :=
  Debug.Live "Button" 3 (Some "ok") [] (Some []).
Definition live_container : Debug.LiveNode :=
  Debug.Live "Container" 2 None [] (Some [live_button]).
Definition live_screen : Debug.LiveNode :=
  Debug.Live "Screen" 1 None [] (Some [live_container]).

Definition live_app : Debug.AppInstance := Debug.mkApp true (inr live_screen).

(** A chain of nested containers: each widget is the parent of the
    next. *)
Definition nested (name : string) (parent : option string) : Debug.WidgetInfo :=
  Debug.mkWidget name "Container" None [] parent [] None true.

Definition chain5 : list Debug.WidgetInfo :=
  [ nested "c1" None; nested "c2" (Some "c1"); nested "c3" (Some "c2");
    nested "c4" (Some "c3"); nested "c5" (Some "c4") ].

Definition chain6 : list Debug.WidgetInfo := chain5 ++ [ nested "c6" (Some "c5") ].

(** An application of class [MyApp] with one handler, [on_mount], which
    counts its calls in the state and returns the count; the debugger is
    attached with event tracing on. *)
Definition counting_handler (args : list Debug.arg) (s : nat) : nat * result nat :=
  (S s, inr (S s)).

Definition counting_app : Debug.App nat nat :=
  Debug.mkLiveApp "MyApp" {[ "on_mount" := Debug.Callable counting_handler ]} 0.

(** The options [--inspect --layout]. *)
Definition layout_config : Debug.DebugConfig :=
  Debug.mkConfig false true true false None false.

Definition tracing_config : Debug.DebugConfig :=
  Debug.mkConfig true false false false None false.

Definition counting_debugger : Debug.TextualDebugger nat nat :=
  Debug.mkDebugger counting_app tracing_config [] [] 100 [].

Definition mount_event : Debug.Event := Debug.mkEvent "Mount()" "Mount".

End Samples.

(* ===================================================================== *)
(** * What the specification asks for                                     *)
(* ===================================================================== *)

Module Specified.
Import Debug.

(** Modelled from the spec: the Schema Registry's mapping from a
    deprecated identifier to its replacement hint.  The source has only
    the set [DEPRECATED_WIDGETS]; the replacements are the ones its
    comment gives. *)
Definition replacement_hint (identifier : string) : option string :=
  if String.eqb identifier "FooterTui" then Some "Footer"
  else if String.eqb identifier "HeaderTui" then Some "Header"
  else None.

(** A message names an identifier when it quotes it, the way the
    validator's messages quote identifiers. *)
Definition names_identifier (message identifier : string) : bool :=
  PyStr.contains ("'" ++ identifier ++ "'") message.

(** Every parent is empty or the name of a widget of the snapshot. *)
Definition parents_present (snapshot : list WidgetInfo) : Prop :=
  forall w, In w snapshot ->
    match w_parent w with
    | None => True
    | Some p => exists w', In w' snapshot /\ w_name w' = p
    end.

(** The children of a widget are exactly the widgets whose parent it is,
    each listed once. *)
Definition children_exact (snapshot : list WidgetInfo) : Prop :=
  forall w, In w snapshot ->
    NoDup (w_children w)
    /\ forall n, In n (w_children w) <->
                 exists c, In c snapshot /\ w_name c = n /\ w_parent c = Some (w_name w).

(** No name is in the children of two widgets. *)
Definition single_parented (snapshot : list WidgetInfo) : Prop :=
  forall w1 w2 n, In w1 snapshot -> In w2 snapshot ->
    In n (w_children w1) -> In n (w_children w2) -> w1 = w2.

End Specified.

(* ===================================================================== *)
(** * The command line of the validator                                   *)
(* ===================================================================== *)

Module ValidatorCli.
Import PyAst Files Validator.

(** The options [main] reads from [argparse]. *)
Record Args := mkArgs {
  arg_file : option string;
  arg_dir : option string;
  arg_recursive : bool;
  arg_fix : bool;
  arg_verbose : bool;
  arg_pattern : string
}.

(** Truth value of an optional string option: absent and empty are
    false. *)
Definition given (o : option string) : bool :=
  match o with
  | Some s => negb (String.eqb s EmptyString)
  | None => false
  end.

(** The state of the loop of [main]: the two counters, what has been
    printed, and the file system. *)
Record Tally := mkTally {
  passed : nat;
  failed : nat;
  printed : list string;
  disk_after : FileSystem
}.

(** [sys.exit(0 if failed == 0 else 1)]. *)
Definition exit_code (t : Tally) : nat :=
  if Nat.eqb (failed t) 0 then 0 else 1.

Section Main.

(** [ast.parse]; [Path.exists] on a directory and [Path.glob], which read
    the directory tree; and the rendering of the success rate, a float
    printed with one decimal. *)
Variable parse : string -> result ast.
Variable dir_exists : string -> bool.
Variable glob : string -> string -> list string.
Variable format_rate : nat -> nat -> string.

(** [scan_directory]. *)
Definition scan_directory (directory pattern : string) : list string :=
  glob directory pattern.

(** One turn of the loop: a fresh validator for each file; what [_log]
    printed during the validation comes before the report. *)
Definition validate_next (verbose fix_on : bool) (total : nat) (t : Tally)
           (entry : nat * string) : Tally :=
  let '(i, file_path) := entry in
  let header :=
    (nlsep ++ "[" ++ PyStr.of_nat i ++ "/" ++ PyStr.of_nat total ++ "] Validating: "
       ++ file_path)%string in
  let '(is_valid, validator, fs) :=
    validate_file parse (init verbose fix_on) file_path (disk_after t) in
  mkTally (if is_valid then S (passed t) else passed t)
          (if is_valid then failed t else S (failed t))
          (printed t ++ header :: console validator ++ print_report validator)
          fs.

(** The loop of [main] over [files_to_validate]. *)
Definition validate_files (verbose fix_on : bool) (files : list string) (fs : FileSystem)
  : Tally :=
  let total := length files in
  fold_left (validate_next verbose fix_on total) (enumerate1 files)
            (mkTally 0 0 [(nlsep ++ "🔍 Validating " ++ PyStr.of_nat total ++ " file(s)...")%string]
                     fs).

(** The summary printed after the loop. *)
Definition summary (total : nat) (t : Tally) : list string :=
  [ (nlsep ++ rule)%string; "SUMMARY"; rule;
    ("Total files:   " ++ PyStr.of_nat total)%string;
    ("✅ Passed:      " ++ PyStr.of_nat (passed t))%string;
    ("❌ Failed:      " ++ PyStr.of_nat (failed t))%string;
    ("Success rate:  " ++ format_rate (passed t) total ++ "%")%string;
    (rule ++ nlsep)%string ].

(** [main] after [parse_args]: the exit status, what was printed on
    standard output, and the file system.  Status 2 is [parser.error]. *)
Definition main (args : Args) (fs : FileSystem) : nat * list string * FileSystem :=
  let file := default EmptyString (arg_file args) in
  let dir := default EmptyString (arg_dir args) in
  if negb (given (arg_file args)) && negb (given (arg_dir args)) then (2, [], fs)
  else
    let selection : string + list string :=
      if given (arg_file args) then
        if exists_ fs file then inr [file]
        else inl ("❌ Error: File not found: " ++ file)%string
      else if given (arg_dir args) then
        if dir_exists dir then
          let pattern :=
            if arg_recursive args then ("**/" ++ arg_pattern args)%string
            else arg_pattern args in
          inr (List.filter (fun f => negb (PyStr.contains "venv" f))
                           (scan_directory dir pattern))
        else inl ("❌ Error: Directory not found: " ++ dir)%string
      else inr [] in
    match selection with
    | inl message => (1, [message], fs)
    | inr files =>
        let t := validate_files (arg_verbose args) (arg_fix args) files fs in
        (exit_code t, printed t ++ summary (length files) t, disk_after t)
    end.

End Main.

End ValidatorCli.

(* ===================================================================== *)
(** * How a pass may change the validator                                 *)
(* ===================================================================== *)

Module Progress.
Import PyAst Files Validator.

(** [v'] is [v] with entries appended to the issue channels and to the
    console, nothing appended to the console when [verbose] is off, and
    every other field as it was. *)
Definition advance (v v' : TextualValidator) : Prop :=
  frame v v'
  /\ (exists es, errors v' = errors v ++ es)
  /\ (exists ws, warnings v' = warnings v ++ ws)
  /\ (exists ss, suggestions v' = suggestions v ++ ss)
  /\ (exists cs, console v' = console v ++ cs)
  /\ (verbose v = false -> console v' = console v).

Definition advances {A} (m : M A) : Prop := forall v, advance v (fst (m v)).

(** The action returns on every validator. *)
Definition never_raises {A} (m : M A) : Prop := forall v, exists a, snd (m v) = inr a.

(** The action raises on [v]. *)
Definition raises_at {A} (m : M A) (v : TextualValidator) : Prop :=
  exists e, snd (m v) = inl e.

(** A [query_one] called on anything but a plain name. *)
Definition chained (node : ast) : Prop :=
  exists lineno value args keywords,
    node = Call lineno (Attribute value "query_one") args keywords
    /\ forall id, value <> Name id.

(** A [CSS] assignment of a constant that is not a string. *)
Definition bad_css (node : ast) : Prop :=
  exists targets value,
    node = Assign (Name "CSS" :: targets) (Constant value)
    /\ forall s, value <> CStr s.

(** The verdict of [validate_file] on [path] when a fresh validator is run
    on the file system [fs]. *)
Definition validates_alone (parse : string -> result ast) (verbose fix_on : bool)
           (fs : FileSystem) (path : string) : bool :=
  fst (fst (validate_file parse (init verbose fix_on) path fs)).

End Progress.

(* ===================================================================== *)
(** * More of textual-debug.py                                            *)
(* ===================================================================== *)

Module DebugReport.
Import Debug.

(** ** diagnose_errors *)

Definition colon : ascii := ascii_of_nat 58.

Definition common_issues : list (string * list string) :=
  [ ("ImportError",
     [ "• Ensure Textual is installed: pip install textual";
       "• Check Python version (requires 3.7+)";
       "• Verify import statements are correct" ]);
    ("SyntaxError",
     [ "• Check for missing colons (:) at end of lines";
       "• Verify proper indentation";
       "• Ensure parentheses are balanced" ]);
    ("AttributeError",
     [ "• Verify widget names are spelled correctly";
       "• Check that widgets are properly imported";
       "• Ensure widgets exist in this Textual version" ]);
    ("TypeError",
     [ "• Check method signatures";
       "• Verify event handlers accept correct parameters";
       "• Ensure CSS is properly formatted" ]);
    ("KeyError",
     [ "• Verify all widget IDs exist";
       "• Check for typos in widget IDs";
       "• Ensure widgets are created before being queried" ]) ].

(** [d.get(k)] on a dictionary literal. *)
Fixpoint dict_get {A} (k : string) (d : list (string * A)) : option A :=
  match d with
  | [] => None
  | (k', a) :: d' => if String.eqb k' k then Some a else dict_get k d'
  end.

(** [error.split(':')[0] if ':' in error else 'Unknown']. *)
Definition error_type (error : string) : string :=
  if PyStr.contains ":" error
  then hd EmptyString (PyStr.split colon error)
  else "Unknown".

(** The lines the loop of [diagnose_errors] appends for one error. *)
Definition diagnose_entry (error : string) : list string :=
  (nl ++ error)%string ::
  match dict_get (error_type error) common_issues with
  | Some solutions =>
      (nl ++ "Possible solutions:")%string
      :: map (fun solution => ("  " ++ solution)%string) solutions
  | None => []
  end.

Definition general_steps : list string :=
  [ (nl ++ "General debugging steps:")%string;
    "  1. Check the full traceback for error location";
    "  2. Verify all imports are correct";
    "  3. Check widget names and IDs";
    "  4. Ensure proper indentation";
    "  5. Run with --verbose for more details" ].

(** The lines of [diagnose_errors] before they are joined. *)
Definition diagnose_lines (errors : list string) : list string :=
  match errors with
  | [] => [ "ERROR DIAGNOSIS"; Validator.rule; "No errors to diagnose." ]
  | _ =>
      [ "ERROR DIAGNOSIS"; Validator.rule ]
      ++ flat_map diagnose_entry errors
      ++ general_steps ++ [ Validator.rule ]
  end.

(** [diagnose_errors(app_file, errors)]; [app_file] is not read. *)
Definition diagnose_errors (app_file : string) (errors : list string) : string :=
  PyStr.join nl (diagnose_lines errors).

(** ** The size of a live tree *)

(** Number of objects of a live tree that the walk reaches. *)
Fixpoint live_size (node : LiveNode) : nat :=
  match node with
  | Live _ _ _ _ nodes =>
      S (match nodes with
         | None => 0
         | Some l =>
             (fix sum (l : list LiveNode) : nat :=
                match l with [] => 0 | child :: l' => live_size child + sum l' end) l
         end)
  | Unreadable _ _ _ => 1
  | Interrupted _ _ _ _ seen _ =>
      S ((fix sum (l : list LiveNode) : nat :=
            match l with [] => 0 | child :: l' => live_size child + sum l' end) seen)
  end.

(** No read of the tree raises: every object is [Live]. *)
Fixpoint all_read (node : LiveNode) : bool :=
  match node with
  | Live _ _ _ _ nodes =>
      match nodes with
      | None => true
      | Some l =>
          (fix every (l : list LiveNode) : bool :=
             match l with [] => true | child :: l' => all_read child && every l' end) l
      end
  | Unreadable _ _ _ => false
  | Interrupted _ _ _ _ _ _ => false
  end.

End DebugReport.

(* ===================================================================== *)
(** * More sample inputs                                                  *)
(* ===================================================================== *)

Module MoreSamples.
Import PyAst Files Validator Samples.

(** A file that queries a widget through the screen:
<<
self.screen.query_one('x')
>> *)
Definition chained_query_text : string := line "self.screen.query_one('x')".

Definition chained_query : ast :=
  Call 1 (Attribute (Attribute (Name "self") "screen") "query_one")
       [Constant (CStr "x")] [].

Definition chained_query_tree : ast := Module_ [ Other "Expr" [chained_query] ].

(** A file that assigns a number to [CSS]:
<<
CSS = 5
>> *)
Definition numeric_css_text : string := line "CSS = 5".

Definition numeric_css : ast := Assign [Name "CSS"] (Constant (CNonStr "int")).

Definition numeric_css_tree : ast := Module_ [ numeric_css ].

(** A file with a handler in the usual form:
<<
def on_button_pressed(self, event): pass
>> *)
Definition handler_def : ast :=
  FunctionDef "on_button_pressed" [] [self_arg; Other "arg" []] []
              [Other "Pass" []] [] None.

Definition handler_tree : ast := Module_ [ handler_def ].

Definition parse_more (text : string) : result ast :=
  if String.eqb text chained_query_text then inr chained_query_tree
  else if String.eqb text numeric_css_text then inr numeric_css_tree
  else parse_samples text.

(** Two files side by side. *)
Definition two_files : FileSystem :=
  {[ "a.py" := plain_file passing_text; "b.py" := plain_file import_only_text ]}.

(** A screen whose first child raises when its [classes] are read and
    whose second child is a button. *)
Definition broken_app : Debug.AppInstance :=
  Debug.mkApp true
    (inr (Debug.Live "Screen" 1 None []
            (Some [ Debug.Unreadable "Container" 2
                      (Exn TypeError "'int' object is not iterable");
                    live_button ]))).

(** The validator that reports a missing import for the repaired sample
    file. *)
Definition screen_fixed_checked : TextualValidator :=
  mkValidator false true [missing_import_error] [] [] [] (Some screen_fixed_tree)
              (Some "app.py") [].

(** A button created inside a container:
<<
w.Container(w.Button())
>> *)
Definition nested_call_tree : ast :=
  Module_ [ Other "Expr"
              [ Call 1 (Attribute (Name "w") "Container")
                     [ Call 1 (Attribute (Name "w") "Button") [] [] ] [] ] ].

(** A directory [src] that holds the two files and a virtual
    environment. *)
Definition src_exists (dir : string) : bool := String.eqb dir "src".

Definition src_glob (dir pattern : string) : list string :=
  if String.eqb dir "src" then ["a.py"; "venv/site.py"; "b.py"]%string else [].

End MoreSamples.

(* ===================================================================== *)
(** * Properties of the string operations                                 *)
(* ===================================================================== *)

Module StrFacts.
Import PyStr.

Lemma append_cons a s t : (String a s ++ t)%string = String a (s ++ t)%string.
Proof. reflexivity. Qed.

Lemma append_nil t : (EmptyString ++ t)%string = t.
Proof. reflexivity. Qed.

Lemma prefix_empty s : String.prefix EmptyString s = true.
Proof. destruct s; reflexivity. Qed.

Lemma prefix_app p s x : String.prefix p s = true -> String.prefix p (s ++ x)%string = true.
Proof.
  revert s. induction p as [|a p IH]; intros s H; [apply prefix_empty | ].
  destruct s as [|b s]; [discriminate | ]. rewrite append_cons. simpl in *.
  destruct (ascii_dec a b); [auto | discriminate].
Qed.

Lemma prefix_drop p s :
  String.prefix p s = true -> (p ++ drop (String.length p) s)%string = s.
Proof.
  revert s. induction p as [|a p IH]; intros s H; [reflexivity | ].
  destruct s as [|b s]; simpl in *; [discriminate | ].
  destruct (ascii_dec a b) as [-> | ]; [ | discriminate].
  rewrite append_cons. simpl. f_equal. apply IH. assumption.
Qed.

(** Replacing a pattern by itself changes nothing. *)
Lemma replace_same old s : replace old old s = s.
Proof.
  unfold replace. generalize (String.length s) as fuel. intros fuel. revert s.
  induction fuel as [|fuel IH]; intros s; simpl; [reflexivity | ].
  destruct (String.prefix old s) eqn:Hp.
  - rewrite IH. apply prefix_drop. assumption.
  - destruct s; [reflexivity | ]. rewrite IH. reflexivity.
Qed.

Lemma contains_app_r needle a b :
  contains needle b = true -> contains needle (a ++ b)%string = true.
Proof.
  intros H. induction a as [|c a IH]; [assumption | ].
  rewrite append_cons. simpl. rewrite IH. apply orb_true_r.
Qed.

Lemma contains_prefix needle s : String.prefix needle s = true -> contains needle s = true.
Proof. intros H. destruct s; simpl in *; rewrite H; reflexivity. Qed.

Lemma count_app c a b : count c (a ++ b)%string = count c a + count c b.
Proof.
  induction a as [|x a IH]; [reflexivity | ].
  rewrite append_cons. simpl. rewrite IH. lia.
Qed.

(** A pattern of one character occurs exactly when it is counted. *)
Lemma contains_char c s :
  contains (String c EmptyString) s = negb (Nat.eqb (count c s) 0).
Proof.
  induction s as [|a s IH]; [reflexivity | ].
  cbn [contains count String.prefix]. rewrite IH.
  destruct (ascii_dec c a) as [-> | Hne].
  - rewrite Ascii.eqb_refl. destruct s; reflexivity.
  - assert (Ascii.eqb a c = false) as -> by (apply Ascii.eqb_neq; congruence).
    reflexivity.
Qed.

Lemma split_nonempty c s : split c s <> [].
Proof.
  destruct s as [|a s]; simpl; [discriminate | ].
  destruct (Ascii.eqb a c); [discriminate | ]. destruct (split c s); discriminate.
Qed.

(** The pieces of a split do not contain the separator. *)
Lemma split_free c s : Forall (fun l => count c l = 0) (split c s).
Proof.
  induction s as [|a s IH]; simpl; [repeat constructor | ].
  destruct (Ascii.eqb a c) eqn:E; [constructor; [reflexivity | assumption] | ].
  destruct (split c s) as [|h t]; [repeat constructor; simpl; rewrite E; reflexivity | ].
  inversion IH; subst. constructor; [ | assumption]. simpl. rewrite E. assumption.
Qed.

Lemma concat_cons2 sep x y l :
  String.concat sep (x :: y :: l) = (x ++ sep ++ String.concat sep (y :: l))%string.
Proof. reflexivity. Qed.

Lemma join_split c s : join (String c EmptyString) (split c s) = s.
Proof.
  unfold join. induction s as [|a s IH]; [reflexivity | ].
  cbn [split]. pose proof (split_nonempty c s) as Hne.
  destruct (split c s) as [|h t]; [contradiction | ].
  destruct (Ascii.eqb a c) eqn:E.
  - apply Ascii.eqb_eq in E. subst a.
    rewrite concat_cons2, IH. reflexivity.
  - destruct t as [|y t].
    + cbn [String.concat] in *. rewrite IH. reflexivity.
    + rewrite concat_cons2 in *. rewrite append_cons, IH. reflexivity.
Qed.

Lemma split_single c s : count c s = 0 -> split c s = [s].
Proof.
  induction s as [|a s IH]; intros H; [reflexivity | ].
  simpl in *. destruct (Ascii.eqb a c); [discriminate | ]. rewrite IH by assumption.
  reflexivity.
Qed.

Lemma split_app_free c x rest :
  count c x = 0 -> split c (x ++ String c rest)%string = x :: split c rest.
Proof.
  induction x as [|a x IH]; intros H.
  - rewrite append_nil. cbn [split]. rewrite Ascii.eqb_refl. reflexivity.
  - rewrite append_cons. cbn [split]. simpl in H.
    destruct (Ascii.eqb a c); [discriminate | ].
    rewrite IH by assumption. reflexivity.
Qed.

(** Joining lines and splitting again gives the lines back. *)
Lemma split_join c lines :
  lines <> [] -> Forall (fun l => count c l = 0) lines ->
  split c (join (String c EmptyString) lines) = lines.
Proof.
  unfold join. induction lines as [|x lines IH]; intros Hne Hfree; [contradiction | ].
  inversion Hfree as [|? ? Hx Hrest]; subst.
  destruct lines as [|y lines].
  - simpl. apply split_single. assumption.
  - rewrite concat_cons2. rewrite append_cons, append_nil.
    rewrite split_app_free by assumption. rewrite IH; [reflexivity | discriminate | assumption].
Qed.
End StrFacts.

(* ===================================================================== *)
(** * Properties of the syntax-tree walk                                  *)
(* ===================================================================== *)

Module AstFacts.
Import PyAst.

Lemma sizes_app l1 l2 : sizes (l1 ++ l2) = sizes l1 + sizes l2.
Proof. induction l1; simpl; [reflexivity | rewrite IHl1; lia]. Qed.

(** A node counts for one more than its children. *)
Lemma size_children n : size n = S (sizes (iter_child_nodes n)).
Proof.
  destruct n; cbn [size iter_child_nodes]; fold sizes;
    rewrite ?sizes_app; cbn [sizes opt_node];
    try match goal with |- context [match ?o with Some _ => _ | None => _ end] =>
          destruct o end;
    cbn [sizes opt_node size]; fold sizes; rewrite ?sizes_app; cbn [sizes]; lia.
Qed.

(** With fuel for every node in the queue, the loop yields exactly the
    nodes of the queued trees. *)
Lemma walk_queue_spec fuel : forall todo n,
  sizes todo <= fuel ->
  (In n (walk_queue fuel todo) <-> exists r, In r todo /\ subnode n r).
Proof.
  induction fuel as [|fuel IH]; intros todo n Hfuel.
  - destruct todo as [|x rest].
    + simpl. split; [tauto | intros (r & [] & _)].
    + simpl in Hfuel. pose proof (size_children x). lia.
  - destruct todo as [|x rest].
    + simpl. split; [tauto | intros (r & [] & _)].
    + cbn [walk_queue]. simpl in Hfuel. pose proof (size_children x) as Hx.
      assert (Hle : sizes (rest ++ iter_child_nodes x) <= fuel)
        by (rewrite sizes_app; lia).
      split.
      * intros [<- | Hin].
        -- exists x. split; [left; reflexivity | constructor].
        -- apply (IH _ _ Hle) in Hin. destruct Hin as (r & Hr & Hsub).
           apply in_app_or in Hr. destruct Hr as [Hr | Hr].
           ++ exists r. split; [right; assumption | assumption].
           ++ exists x. split; [left; reflexivity | ].
              eapply subnode_child; eassumption.
      * intros (r & [<- | Hr] & Hsub).
        -- inversion Hsub as [| c t Hc Hsub']; subst.
           ++ left; reflexivity.
           ++ right. apply (IH _ _ Hle). exists c. split; [ | assumption].
              apply in_or_app. right; assumption.
        -- right. apply (IH _ _ Hle). exists r. split; [ | assumption].
           apply in_or_app. left; assumption.
Qed.

(** [ast.walk] has fuel for the whole tree: it visits every node of the
    tree, and nothing else. *)
Lemma walk_complete t n : In n (walk t) <-> subnode n t.
Proof.
  unfold walk. rewrite walk_queue_spec by (simpl; lia).
  split.
  - intros (r & [<- | []] & H). exact H.
  - intros H. exists t. split; [left; reflexivity | exact H].
Qed.

End AstFacts.

(* ===================================================================== *)
(** * The passes write only the issue channels and the console            *)
(* ===================================================================== *)

Module FrameFacts.
Import PyAst Files Validator.

Lemma frame_refl v : frame v v.
Proof. repeat split. Qed.

Lemma frame_trans v1 v2 v3 : frame v1 v2 -> frame v2 v3 -> frame v1 v3.
Proof. unfold frame. intuition congruence. Qed.

Lemma preserves_ret {A} (a : A) : preserves (ret a).
Proof. intros v. apply frame_refl. Qed.

Lemma preserves_raise {A} e : preserves (@raise A e).
Proof. intros v. apply frame_refl. Qed.

Lemma preserves_get : preserves get.
Proof. intros v. apply frame_refl. Qed.

Lemma preserves_bind {A B} (m : M A) (k : A -> M B) :
  preserves m -> (forall a, preserves (k a)) -> preserves (bind m k).
Proof.
  intros Hm Hk v. unfold bind. specialize (Hm v).
  destruct (m v) as [v1 [e | a]]; simpl in *; [assumption | ].
  eapply frame_trans; [eassumption | apply Hk].
Qed.

Lemma preserves_add_error msg : preserves (add_error msg).
Proof. intros v. repeat split. Qed.

Lemma preserves_add_warning msg : preserves (add_warning msg).
Proof. intros v. repeat split. Qed.

Lemma preserves_add_suggestion msg : preserves (add_suggestion msg).
Proof. intros v. repeat split. Qed.

Lemma preserves_log msg : preserves (_log msg).
Proof. intros v. unfold _log, modify. simpl. destruct (verbose v) eqn:E; repeat split; simpl; auto. Qed.

Lemma preserves_if {A} (b : bool) (m1 m2 : M A) :
  preserves m1 -> preserves m2 -> preserves (if b then m1 else m2).
Proof. destruct b; auto. Qed.

Lemma preserves_when b m : preserves m -> preserves (when b m).
Proof. destruct b; simpl; [auto | intros _; apply preserves_ret]. Qed.

Lemma preserves_for_each {A} (l : list A) body :
  (forall x, preserves (body x)) -> preserves (for_each l body).
Proof.
  intros H. induction l; simpl; [apply preserves_ret | ].
  apply preserves_bind; auto.
Qed.

Lemma preserves_fold_each {A S} (l : list A) (body : S -> A -> M S) :
  (forall s x, preserves (body s x)) -> forall s, preserves (fold_each l body s).
Proof.
  intros H. induction l; intros s; simpl; [apply preserves_ret | ].
  apply preserves_bind; auto.
Qed.

Lemma preserves_with_tree pass :
  (forall t, preserves (pass t)) -> preserves (with_tree pass).
Proof.
  intros H. unfold with_tree. apply preserves_bind; [apply preserves_get | ].
  intros v. destruct (ast_tree v); [apply H | apply preserves_ret].
Qed.

Create HintDb frame.
#[export] Hint Resolve preserves_ret preserves_raise preserves_get
  preserves_add_error preserves_add_warning preserves_add_suggestion
  preserves_log : frame.

(** One step of a frame proof. *)
Ltac frame_step :=
  first
    [ apply preserves_bind | apply preserves_when | apply preserves_for_each
    | apply preserves_fold_each | apply preserves_with_tree
    | solve [auto with frame]
    | match goal with
      | |- preserves (match ?x with _ => _ end) => destruct x
      | |- preserves (let '(_, _) := ?x in _) => destruct x
      end
    | progress intros ].

Ltac frame_tac f := unfold f; repeat frame_step.

Lemma preserves_validate_imports : preserves _validate_imports.
Proof. frame_tac _validate_imports. Qed.

Lemma preserves_validate_app_methods c : preserves (_validate_app_methods c).
Proof. frame_tac _validate_app_methods. unfold check_app_method. repeat frame_step. Qed.

Lemma preserves_validate_class_structure : preserves _validate_class_structure.
Proof.
  frame_tac _validate_class_structure; apply preserves_validate_app_methods.
Qed.

Lemma preserves_validate_widgets : preserves _validate_widgets.
Proof. frame_tac _validate_widgets. unfold check_widget_node. repeat frame_step. Qed.

Lemma preserves_check_widget_in_yield node : preserves (_check_widget_in_yield node).
Proof.
  unfold _check_widget_in_yield.
  destruct node as [| | | | | | | | |lineno func args keywords| | |]; auto with frame.
  destruct func; auto with frame.
  repeat apply preserves_if; auto with frame.
Qed.

#[export] Hint Resolve preserves_check_widget_in_yield : frame.

Lemma preserves_validate_layouts : preserves _validate_layouts.
Proof. frame_tac _validate_layouts. Qed.

Lemma preserves_validate_event_handlers : preserves _validate_event_handlers.
Proof. frame_tac _validate_event_handlers; unfold check_handler_node; repeat frame_step. Qed.

Lemma preserves_validate_css : preserves _validate_css.
Proof.
  frame_tac _validate_css; try (unfold collect_css; repeat frame_step).
  unfold _validate_css_content. repeat frame_step. unfold check_css_line. repeat frame_step.
Qed.

Lemma preserves_validate_best_practices : preserves _validate_best_practices.
Proof.
  frame_tac _validate_best_practices; unfold _check_compose_best_practices; repeat frame_step.
Qed.

Lemma preserves_validate_performance : preserves _validate_performance.
Proof. frame_tac _validate_performance; unfold check_query_node; repeat frame_step. Qed.

Lemma preserves_run_passes : preserves run_passes.
Proof.
  unfold run_passes.
  repeat (apply preserves_bind; [ | intros _]);
    auto using preserves_validate_imports, preserves_validate_class_structure,
      preserves_validate_widgets, preserves_validate_layouts,
      preserves_validate_event_handlers, preserves_validate_css,
      preserves_validate_best_practices, preserves_validate_performance.
Qed.
End FrameFacts.

(* ===================================================================== *)
(** * The validator                                                       *)
(* ===================================================================== *)

Module ValidatorFacts.
Import PyAst Files Validator FrameFacts Samples Specified StrFacts.

(** ** validate_file and the verdict *)

Lemma length_zero_iff {A} (l : list A) : Nat.eqb (length l) 0 = true <-> l = [].
Proof. destruct l; simpl; split; congruence. Qed.

Lemma on_exception_errors e v : errors (on_exception e v) <> [].
Proof.
  unfold on_exception. destruct (exn_cls e); simpl;
    destruct (errors v); discriminate.
Qed.

Lemma read_file_exists fs p text : read_file fs p = inr text -> exists_ fs p = true.
Proof. unfold read_file, exists_. destruct (fs !! p); [reflexivity | discriminate]. Qed.

Lemma verdict_passed v : verdict v = "✅ VALIDATION PASSED" <-> errors v = [].
Proof.
  unfold verdict. destruct (errors v); split; try reflexivity; try discriminate.
Qed.

(** C1.  For a file that is read and parsed, [validate_file] returns
    [True] exactly when [errors] is empty at the end of the run, whatever
    [warnings] and [suggestions] hold, and the report prints the PASSED
    verdict in exactly that case.  The run may be the normal one, with or
    without the fix option, or one that a pass ends with an exception. *)
Theorem validate_file_passes_iff_no_errors
    (parse : string -> result ast) (v : TextualValidator) (path : string)
    (fs : FileSystem) (text : string) (tree : ast) :
  read_file fs path = inr text ->
  parse text = inr tree ->
  let '(passed, v', _) := validate_file parse v path fs in
  (passed = true <-> errors v' = [])
  /\ (verdict v' = "✅ VALIDATION PASSED" <-> passed = true).
Proof.
  intros Hread Hparse. unfold validate_file.
  rewrite (read_file_exists _ _ _ Hread). cbn [negb].
  rewrite Hread, Hparse.
  destruct (run_passes _) as [v1 [e | []]].
  - pose proof (on_exception_errors e v1) as Hne.
    repeat split; intros; try congruence; try discriminate.
    apply verdict_passed in H. congruence.
  - destruct (if fix_enabled v1 && _ then _ else _) as [v2 fs2].
    rewrite verdict_passed. rewrite length_zero_iff.
    repeat split; intros; auto.
Qed.

(** C1 at the sample file that passes. *)
Lemma validate_file_passes_witness :
  let '(passed, v', _) :=
    validate_file parse_samples (init false false) "app.py" (disk passing_text) in
  (passed = true <-> errors v' = [])
  /\ (verdict v' = "✅ VALIDATION PASSED" <-> passed = true).
Proof.
  exact (validate_file_passes_iff_no_errors parse_samples (init false false) "app.py"
           (disk passing_text) passing_text passing_tree eq_refl eq_refl).
Defined.

(** The sample file has its [compose] method with the right annotation;
    it passes although a Warning was raised. *)
Example passing_file_passes_with_warning :
  let '(passed, v', _) :=
    validate_file parse_samples (init false false) "app.py" (disk passing_text) in
  passed = true /\ errors v' = [] /\ warnings v' = [yield_warning].
Proof. vm_compute. repeat split. Qed.

(** ** The scenario of the specification *)

(** C2.  On the file that holds only [class MyApp(App)] with
    [def compose(self): yield Button("x")], the layout pass gives no
    unknown-widget Warning and the best-practice pass gives the Warning
    for fewer than two yields, but the structural pass reports
    [No class inheriting from App found]: a base written as the plain
    name [App] is not an [ast.Attribute]. *)
Theorem my_app_scenario :
  let structural := fst (_validate_class_structure (with_tree_of my_app)) in
  let layout := fst (_validate_layouts (with_tree_of my_app)) in
  let practices := fst (_validate_best_practices (with_tree_of my_app)) in
  errors structural = [no_app_class_error]
  /\ warnings layout = []
  /\ warnings practices = [yield_warning].
Proof. vm_compute. repeat split. Qed.

(** No class whose bases are all plain names is taken for an application
    class, whatever the names. *)
Lemma plain_name_bases_not_found ids : has_app_base (map Name ids) = false.
Proof. induction ids as [|id ids IH]; [reflexivity | exact IH]. Qed.

(** The same class with the base written [textual.app.App] is found, and
    its [compose] method with it. *)
Example qualified_base_is_found :
  errors (fst (_validate_class_structure (with_tree_of passing_tree))) = [].
Proof. reflexivity. Qed.

(** ** Style blocks *)

(** C6, as stated: exactly one Error.  The validator gives two. *)
Lemma unbalanced_block_not_one_error :
  let v' := fst (_validate_css (with_tree_of unbalanced_tree)) in
  ~ exists e, errors v' = [e].
Proof. intros v' [e He]. vm_compute in He. discriminate. Qed.

(** C6, amended.  For the style block [Screen { background: red;] the
    style pass adds exactly two Errors, the unclosed-block Error and the
    mismatched-braces Error, and both cite line 1, the line of the
    unmatched brace. *)
Theorem unbalanced_block_two_errors (v : TextualValidator) :
  ast_tree v = Some unbalanced_tree ->
  let v' := fst (_validate_css v) in
  errors v' = errors v ++ [unclosed_block_error 1; mismatched_braces_error 1]
  /\ unclosed_block_error 1 = "Unclosed CSS block starting at line 1"
  /\ mismatched_braces_error 1 = "Mismatched braces in CSS at line 1".
Proof.
  intros Htree v'. subst v'. split; [ | split; reflexivity].
  unfold _validate_css, with_tree, bind, get. rewrite Htree.
  destruct v as [vb fx es ws ss fa t fp co].
  change (errors (mkValidator vb fx es ws ss fa t fp co)) with es.
  change (es ++ [unclosed_block_error 1; mismatched_braces_error 1])
    with (es ++ ([unclosed_block_error 1] ++ [mismatched_braces_error 1])).
  rewrite app_assoc. destruct vb; vm_compute; reflexivity.
Qed.

(** C6, amended, on a fresh validator. *)
Lemma unbalanced_block_two_errors_witness :
  errors (fst (_validate_css (with_tree_of unbalanced_tree)))
  = [unclosed_block_error 1; mismatched_braces_error 1].
Proof.
  apply (unbalanced_block_two_errors (with_tree_of unbalanced_tree)). reflexivity.
Defined.

(** Whenever the unclosed-block check fires on a line, the brace counts
    of that line differ, so the mismatched-braces check fires too. *)
Lemma unclosed_implies_mismatched line :
  PyStr.contains "{" line && negb (PyStr.contains "}" line) = true ->
  negb (Nat.eqb (PyStr.count open_brace line) (PyStr.count close_brace line)) = true.
Proof.
  change "{" with (String open_brace EmptyString).
  change "}" with (String close_brace EmptyString).
  rewrite !contains_char. intros H. apply andb_true_iff in H. destruct H as [Ho Hc].
  rewrite negb_involutive in Hc. apply Nat.eqb_eq in Hc. rewrite Hc.
  exact Ho.
Qed.

(** ** Deprecated widgets *)

Lemma set_errors_nil v : set_errors (errors v ++ []) v = v.
Proof. destruct v; simpl; rewrite app_nil_r; reflexivity. Qed.

Lemma check_widget_node_run usage node v :
  exists usage',
    check_widget_node usage node v
    = (set_errors (errors v ++ map deprecated_widget_error (deprecated_attributes [node])) v,
       inr usage').
Proof.
  destruct node; simpl; try (rewrite set_errors_nil; eexists; reflexivity).
  destruct node; simpl; try (rewrite set_errors_nil; eexists; reflexivity).
  unfold bind, when. destruct (mem attr DEPRECATED_WIDGETS); simpl.
  - eexists; reflexivity.
  - rewrite set_errors_nil. eexists; reflexivity.
Qed.

Lemma deprecated_attributes_cons n l :
  deprecated_attributes (n :: l) = deprecated_attributes [n] ++ deprecated_attributes l.
Proof. unfold deprecated_attributes. simpl. rewrite app_nil_r. reflexivity. Qed.

Lemma fold_check_widget_run nodes : forall usage v,
  exists usage',
    fold_each nodes check_widget_node usage v
    = (set_errors (errors v ++ map deprecated_widget_error (deprecated_attributes nodes)) v,
       inr usage').
Proof.
  induction nodes as [|n nodes IH]; intros usage v.
  - simpl. exists usage. unfold ret. rewrite set_errors_nil. reflexivity.
  - cbn [fold_each]. unfold bind at 1.
    destruct (check_widget_node_run usage n v) as [u1 ->].
    destruct (IH u1 (set_errors (errors v ++ map deprecated_widget_error
                                               (deprecated_attributes [n])) v))
      as [u2 ->].
    exists u2. f_equal. rewrite (deprecated_attributes_cons n nodes).
    rewrite map_app. destruct v; simpl. rewrite app_assoc. reflexivity.
Qed.

(** The widget pass never raises, and adds one Error per deprecated
    attribute of the tree, in the order of the walk. *)
Lemma validate_widgets_run v tree :
  ast_tree v = Some tree ->
  exists v',
    _validate_widgets v = (v', inr tt)
    /\ errors v' = errors v ++ map deprecated_widget_error
                                   (deprecated_attributes (walk tree)).
Proof.
  intros Htree. unfold _validate_widgets, with_tree, bind, get. rewrite Htree.
  destruct (fold_check_widget_run (walk tree) ∅ v) as [u ->].
  unfold _log, modify. eexists. split; [reflexivity | ].
  destruct v as [vb ? ? ? ? ? ? ? ?]; destruct vb; reflexivity.
Qed.

Lemma in_deprecated_attributes attr nodes :
  In attr (deprecated_attributes nodes) <->
  exists widget_name, In (Attribute (Name widget_name) attr) nodes
                      /\ attr ∈ DEPRECATED_WIDGETS.
Proof.
  unfold deprecated_attributes. rewrite in_flat_map. split.
  - intros (node & Hin & Hattr).
    destruct node; try contradiction. destruct node; try contradiction.
    revert Hattr. unfold mem.
    match goal with
    | |- context [bool_decide ?P] => destruct (bool_decide P) eqn:E
    end; [ | intros H; destruct H].
    apply bool_decide_eq_true in E. intros H. destruct H as [<- | []]. eauto.
  - intros (w & Hin & Hdep). eexists. split; [exact Hin | ].
    simpl. unfold mem. rewrite bool_decide_eq_true_2 by assumption. left; reflexivity.
Qed.

Lemma deprecated_cases attr :
  attr ∈ DEPRECATED_WIDGETS -> attr = "FooterTui" \/ attr = "HeaderTui".
Proof.
  unfold DEPRECATED_WIDGETS. intros H. apply elem_of_list_to_set in H.
  apply list_elem_of_In in H. destruct H as [<- | [<- | []]]; auto.
Qed.

(** For the file [widgets.FooterTui()], whose deprecated identifier has
    the replacement [Footer], no Error of the run names [Footer]. *)
Lemma deprecated_error_names_no_replacement :
  let v' := fst (_validate_widgets (with_tree_of deprecated_tree)) in
  subnode (Attribute (Name "widgets") "FooterTui") deprecated_tree
  /\ replacement_hint "FooterTui" = Some "Footer"
  /\ ~ exists e, In e (errors v') /\ names_identifier e "Footer" = true.
Proof.
  split; [ | split].
  - apply AstFacts.walk_complete. vm_compute. tauto.
  - reflexivity.
  - intros (e & Hin & Hname). vm_compute in Hin. destruct Hin as [<- | []].
    vm_compute in Hname. discriminate.
Qed.

(** For every node [name.attr] of the validated tree whose [attr] is in
    the deprecated set, the widget pass emits an Error; the Error names
    the deprecated identifier itself, and it does not name the
    replacement. *)
Lemma deprecated_attribute_reported
    (v : TextualValidator) (tree : ast) (widget_name attr : string) :
  ast_tree v = Some tree ->
  subnode (Attribute (Name widget_name) attr) tree ->
  attr ∈ DEPRECATED_WIDGETS ->
  let v' := fst (_validate_widgets v) in
  In (deprecated_widget_error attr) (errors v')
  /\ names_identifier (deprecated_widget_error attr) attr = true
  /\ (forall replacement, replacement_hint attr = Some replacement ->
        names_identifier (deprecated_widget_error attr) replacement = false).
Proof.
  intros Htree Hsub Hdep v'. subst v'.
  destruct (validate_widgets_run v tree Htree) as (v' & -> & Herr). simpl. rewrite Herr.
  split; [ | split].
  - apply in_or_app. right. apply in_map. apply in_deprecated_attributes.
    exists widget_name. split; [ | assumption]. apply AstFacts.walk_complete. assumption.
  - destruct (deprecated_cases attr Hdep) as [-> | ->]; vm_compute; reflexivity.
  - intros r Hr. destruct (deprecated_cases attr Hdep) as [-> | ->];
      vm_compute in Hr; injection Hr as <-; vm_compute; reflexivity.
Qed.

(** The same at the file [widgets.FooterTui()]. *)
Lemma deprecated_attribute_reported_at_sample :
  In (deprecated_widget_error "FooterTui")
     (errors (fst (_validate_widgets (with_tree_of deprecated_tree)))).
Proof.
  apply (deprecated_attribute_reported (with_tree_of deprecated_tree) deprecated_tree
           "widgets" "FooterTui").
  - reflexivity.
  - apply AstFacts.walk_complete. vm_compute. tauto.
  - apply (bool_decide_unpack _). vm_compute. exact I.
Defined.

(** Nothing else is reported: every Error the widget pass adds is the one
    of an attribute [name.attr] of the tree.  A deprecated identifier
    written as a plain name, imported, or reached through a longer path
    [a.b.attr] draws none. *)
Lemma only_attributes_on_names_reported v tree e :
  ast_tree v = Some tree ->
  In e (errors (fst (_validate_widgets v))) ->
  In e (errors v)
  \/ exists widget_name attr,
       subnode (Attribute (Name widget_name) attr) tree
       /\ attr ∈ DEPRECATED_WIDGETS
       /\ e = deprecated_widget_error attr.
Proof.
  intros Htree. destruct (validate_widgets_run v tree Htree) as (v' & -> & Herr).
  simpl. rewrite Herr. intros Hin. apply in_app_or in Hin as [Hin | Hin]; [left; exact Hin | ].
  right. apply in_map_iff in Hin as (attr & <- & Hattr).
  apply in_deprecated_attributes in Hattr as (w & Hnode & Hdep).
  exists w, attr. split; [apply AstFacts.walk_complete, Hnode | split; [exact Hdep | reflexivity]].
Qed.

(** C7.  The file that imports [FooterTui] and [HeaderTui] and yields
    both, each written as a plain name the way widgets are written, passes
    validation with no Error at all, although both identifiers are in the
    deprecated set: the widget pass looks only at attributes [name.attr].
    Written [widgets.FooterTui()] the identifier is reported, by an Error
    that names [FooterTui] itself and not its replacement [Footer]. *)
Theorem deprecated_plain_names_pass :
  let '(passed, v', _) :=
    validate_file parse_deprecated (init false false) "app.py" (disk deprecated_names_text) in
  let reported := errors (fst (_validate_widgets (with_tree_of deprecated_tree))) in
  (subnode (Name "FooterTui") deprecated_names_tree
   /\ subnode (Name "HeaderTui") deprecated_names_tree
   /\ "FooterTui" ∈ DEPRECATED_WIDGETS /\ "HeaderTui" ∈ DEPRECATED_WIDGETS)
  /\ (passed = true /\ errors v' = [] /\ verdict v' = "✅ VALIDATION PASSED")
  /\ reported
     = ["Deprecated widget 'FooterTui' found. Use 'FooterTui' replacement instead"]
  /\ replacement_hint "FooterTui" = Some "Footer"
  /\ (forall e, In e reported -> names_identifier e "Footer" = false).
Proof.
  assert (Hrun : let '(passed, v', _) :=
                   validate_file parse_deprecated (init false false) "app.py"
                                 (disk deprecated_names_text) in
                 passed = true /\ errors v' = [] /\ verdict v' = "✅ VALIDATION PASSED")
    by (vm_compute; repeat split).
  destruct (validate_file parse_deprecated (init false false) "app.py"
                          (disk deprecated_names_text)) as [[passed v'] fs'].
  cbv zeta. split; [ | split; [exact Hrun | split; [reflexivity | split; [reflexivity | ]]]].
  - repeat split;
      try (apply AstFacts.walk_complete; vm_compute; tauto);
      apply (bool_decide_unpack _); vm_compute; exact I.
  - intros e Hin. vm_compute in Hin. destruct Hin as [<- | []]. vm_compute. reflexivity.
Qed.

(** ** The auto-fix engine *)

Lemma find_import_line_spec lines : forall i idx,
  find_import_line i lines = Some idx ->
  exists k line,
    idx = i + k /\ lines !! k = Some line /\ PyStr.startswith import_prefix line = true
    /\ forall line', PyStr.startswith import_prefix line' = true ->
                     find_import_line i (<[k := line']> lines) = Some idx.
Proof.
  induction lines as [|l lines IH]; intros i idx H; [discriminate | ].
  cbn [find_import_line] in H. destruct (PyStr.startswith import_prefix l) eqn:Hl.
  - injection H as <-. exists 0, l. repeat split; [lia | assumption | ].
    intros line' H'. cbn [find_import_line]. simpl. rewrite H'. reflexivity.
  - destruct (IH _ _ H) as (k & line & -> & Hk & Hline & Hupd).
    exists (S k), line. repeat split; [lia | assumption | assumption | ].
    intros line' H'. simpl. cbn [find_import_line]. rewrite Hl. apply Hupd. assumption.
Qed.

Lemma fixed_line_free line :
  PyStr.count PyStr.newline line = 0 -> PyStr.count PyStr.newline (line ++ ", ComposeResult")%string = 0.
Proof. intros H. rewrite count_app, H. reflexivity. Qed.

(** The repair of the import line is idempotent on every text. *)
Theorem fix_missing_imports_idempotent text :
  _fix_missing_imports (_fix_missing_imports text) = _fix_missing_imports text.
Proof.
  pose proof (split_free PyStr.newline text) as Hfree.
  pose proof (split_nonempty PyStr.newline text) as Hne.
  pose proof (join_split PyStr.newline text) as Hjoin.
  remember (PyStr.split PyStr.newline text) as lines eqn:Hlines.
  destruct (find_import_line 0 lines) as [idx | ] eqn:Hfind.
  - destruct (find_import_line_spec _ _ _ Hfind) as (k & line & -> & Hk & Hline & Hupd).
    simpl in *.
    destruct (PyStr.contains "ComposeResult" line) eqn:Hcr.
    + assert (E : _fix_missing_imports text = text).
      { unfold _fix_missing_imports. rewrite <- Hlines, Hfind, Hk, Hcr. exact Hjoin. }
      rewrite E. exact E.
    + set (line' := (line ++ ", ComposeResult")%string).
      assert (E : _fix_missing_imports text = PyStr.join nlsep (<[k := line']> lines)).
      { unfold _fix_missing_imports. rewrite <- Hlines, Hfind, Hk, Hcr, replace_same.
        reflexivity. }
      assert (Hfree' : Forall (fun l => PyStr.count PyStr.newline l = 0) (<[k := line']> lines)).
      { apply Forall_insert; [assumption | ]. apply fixed_line_free.
        rewrite List.Forall_forall in Hfree. apply Hfree.
        apply list_elem_of_In. eapply list_elem_of_lookup_2. eassumption. }
      assert (Hne' : <[k := line']> lines <> []).
      { destruct lines; [contradiction | ]. destruct k; discriminate. }
      rewrite E. unfold _fix_missing_imports. unfold nlsep.
      rewrite (split_join _ _ Hne' Hfree').
      rewrite (Hupd line') by (apply prefix_app; exact Hline).
      rewrite list_lookup_insert_eq by (eapply lookup_lt_Some; eassumption).
      assert (PyStr.contains "ComposeResult" line' = true) as ->
        by (apply contains_app_r; reflexivity).
      reflexivity.
  - set (new := "from textual.app import App, ComposeResult").
    assert (E : _fix_missing_imports text = PyStr.join nlsep (new :: lines)).
    { unfold _fix_missing_imports. rewrite <- Hlines, Hfind. reflexivity. }
    assert (Hfree' : Forall (fun l => PyStr.count PyStr.newline l = 0) (new :: lines))
      by (constructor; [reflexivity | assumption]).
    assert (Hne' : new :: lines <> []) by discriminate.
    rewrite E. unfold _fix_missing_imports, nlsep.
    rewrite (split_join _ _ Hne' Hfree'). reflexivity.
Qed.

(** The loop of the engine leaves a repaired text as it is, however many
    missing-import Errors it sees. *)
Lemma apply_fixes_after_fix errs text :
  apply_fixes errs (_fix_missing_imports text) = _fix_missing_imports text.
Proof.
  unfold apply_fixes. induction errs as [|e errs IH]; simpl; [reflexivity | ].
  destruct (PyStr.contains "Missing required import" e); [ | exact IH].
  rewrite fix_missing_imports_idempotent. exact IH.
Qed.

(** Running the engine on a file that holds a repaired text is a no-op:
    nothing is written and no FixRecord is appended. *)
Lemma second_fix_is_noop v fs p text :
  file_path v = Some p ->
  read_file fs p = inr (_fix_missing_imports text) ->
  _attempt_fixes v fs = (v, fs).
Proof.
  intros Hp Hread. unfold _attempt_fixes. rewrite Hp, Hread, apply_fixes_after_fix.
  rewrite String.eqb_refl. reflexivity.
Qed.

(** Without a missing-import Error the loop of the engine leaves the
    text as it is. *)
Lemma apply_fixes_no_import_error errs text :
  (forall e, In e errs -> PyStr.contains "Missing required import" e = false) ->
  apply_fixes errs text = text.
Proof.
  unfold apply_fixes. revert text.
  induction errs as [|e errs IH]; intros text H; simpl; [reflexivity | ].
  rewrite (H e) by (left; reflexivity). apply IH. intros e' He'. apply H. right; assumption.
Qed.

Lemma read_after_write fs p original text fs' :
  read_file fs p = inr original ->
  write_file fs p text = inr fs' ->
  read_file fs' p = inr text.
Proof.
  unfold read_file, write_file. destruct (fs !! p) as [f | ]; [ | discriminate].
  destruct (f_read_error f) eqn:Hr; [discriminate | ]. intros _.
  destruct (f_write_error f); [discriminate | ]. intros [= <-].
  rewrite lookup_insert_eq. reflexivity.
Qed.

(** C4.  The sample file's only Error is the missing import, and its first
    line is [from textual.app import Screen].  Validation with the fix
    option rewrites that line to end in [, ComposeResult], records the
    fix, clears the Errors and passes; validating the rewritten file
    raises the missing-import Error again, since [App] is still not
    imported.  The second run changes nothing and records no fix. *)
Theorem fix_keeps_missing_import :
  let fixer := init false true in
  let '(passed1, v1, fs1) := validate_file parse_samples fixer "app.py" (disk screen_text) in
  let '(passed2, v2, fs2) := validate_file parse_samples fixer "app.py" fs1 in
  errors (fst (run_passes (set_ast_tree (Some screen_tree) fixer))) = [missing_import_error]
  /\ (passed1 = true /\ fixes_applied v1 = [fix_record]
      /\ read_file fs1 "app.py" = inr screen_fixed_text)
  /\ (passed2 = false /\ errors v2 = [missing_import_error]
      /\ fixes_applied v2 = [] /\ read_file fs2 "app.py" = inr screen_fixed_text).
Proof. vm_compute. repeat split. Qed.

(** Every run of the engine either appends no FixRecord and leaves the
    file system as it is, or has read the file, written a different text
    in its place, appended one FixRecord, cleared the Errors and appended
    the re-run Warning.  When no Error is a missing-import Error and the
    file can be read, nothing changes. *)
Lemma attempt_fixes_cases (v : TextualValidator) (fs : FileSystem) :
  let '(v', fs') := _attempt_fixes v fs in
  ((fixes_applied v' = fixes_applied v /\ fs' = fs)
   \/ (exists p original fixed,
         file_path v = Some p /\ read_file fs p = inr original
         /\ fixed <> original
         /\ write_file fs p fixed = inr fs' /\ read_file fs' p = inr fixed
         /\ fixes_applied v' = fixes_applied v ++ [fix_record]
         /\ errors v' = []
         /\ warnings v' = warnings v ++ [rerun_warning]))
  /\ ((forall e, In e (errors v) -> PyStr.contains "Missing required import" e = false) ->
      (forall p, file_path v = Some p -> exists text, read_file fs p = inr text) ->
      v' = v /\ fs' = fs).
Proof.
  unfold _attempt_fixes.
  destruct (file_path v) as [p | ] eqn:Hpath; [ | split; auto].
  destruct (read_file fs p) as [e | original] eqn:Hread.
  - split; [left; split; reflexivity | ].
    intros _ Hreadable. destruct (Hreadable p eq_refl) as [text Htext]. congruence.
  - destruct (String.eqb (apply_fixes (errors v) original) original) eqn:Hsame; cbn [negb].
    + split; auto.
    + apply String.eqb_neq in Hsame.
      destruct (write_file fs p (apply_fixes (errors v) original)) as [e | fs'] eqn:Hwrite.
      * split; [left; split; reflexivity | ].
        intros Hnone _. rewrite (apply_fixes_no_import_error _ _ Hnone) in Hsame.
        contradiction.
      * split.
        -- right. exists p, original, (apply_fixes (errors v) original).
           repeat split; auto. eapply read_after_write; eassumption.
        -- intros Hnone _. rewrite (apply_fixes_no_import_error _ _ Hnone) in Hsame.
           contradiction.
Qed.

(** When [validate_file] reaches the engine, it has just read the file
    the engine reads, and the passes have kept the path: the engine's own
    read succeeds. *)
Lemma engine_reads_source parse v path fs text tree v1 :
  read_file fs path = inr text ->
  parse text = inr tree ->
  run_passes (set_ast_tree (Some tree) (set_file_path (Some path) v)) = (v1, inr tt) ->
  file_path v1 = Some path
  /\ validate_file parse v path fs
     = (let '(v2, fs2) :=
          if fix_enabled v1 && negb (Nat.eqb (length (errors v1)) 0)
          then _attempt_fixes v1 fs else (v1, fs) in
        (Nat.eqb (length (errors v2)) 0, v2, fs2)).
Proof.
  intros Hread Hparse Hrun. split.
  - pose proof (preserves_run_passes
                  (set_ast_tree (Some tree) (set_file_path (Some path) v))) as Hf.
    rewrite Hrun in Hf. destruct Hf as (_ & _ & _ & _ & Hp). exact Hp.
  - unfold validate_file. unfold exists_. unfold read_file in Hread.
    destruct (fs !! path) eqn:Hl; [ | discriminate]. cbn [negb].
    unfold read_file. rewrite Hl, Hread, Hparse, Hrun. reflexivity.
Qed.

(** C5.  Take any run of [validate_file] that reaches the engine: the file
    [path] was read as [text], parsed, and the passes left the validator
    [v1].  The engine appends a FixRecord only when it has written a text
    different from [text] in place of the file; in that case it also
    clears the Errors and appends the re-run Warning.  When no Error of
    [v1] is a missing-import Error, the validator, with its errors,
    warnings and fixes-applied sequences, and the file system are left
    unchanged. *)
Theorem engine_run_contract
    (parse : string -> result ast) (v : TextualValidator) (path : string)
    (fs : FileSystem) (text : string) (tree : ast) (v1 : TextualValidator) :
  read_file fs path = inr text ->
  parse text = inr tree ->
  run_passes (set_ast_tree (Some tree) (set_file_path (Some path) v)) = (v1, inr tt) ->
  let '(v', fs') := _attempt_fixes v1 fs in
  ((fixes_applied v' = fixes_applied v1 /\ fs' = fs)
   \/ (exists fixed,
         fixed <> text
         /\ write_file fs path fixed = inr fs' /\ read_file fs' path = inr fixed
         /\ fixes_applied v' = fixes_applied v1 ++ [fix_record]
         /\ errors v' = []
         /\ warnings v' = warnings v1 ++ [rerun_warning]))
  /\ ((forall e, In e (errors v1) -> PyStr.contains "Missing required import" e = false) ->
      v' = v1 /\ fs' = fs).
Proof.
  intros Hread Hparse Hrun.
  destruct (engine_reads_source parse v path fs text tree v1 Hread Hparse Hrun) as [Hpath _].
  generalize (attempt_fixes_cases v1 fs).
  destruct (_attempt_fixes v1 fs) as [v' fs']. intros [Hcases Hkeep]. split.
  - destruct Hcases as [Hsame | (p & original & fixed & Hp & Hr & Hne & Hw & Hr' & Hrest)].
    + left. exact Hsame.
    + right. rewrite Hpath in Hp. injection Hp as <-.
      rewrite Hread in Hr. injection Hr as <-.
      exists fixed. repeat split; tauto.
  - intros Hnone. apply Hkeep; [exact Hnone | ].
    intros p Hp. rewrite Hpath in Hp. injection Hp as <-. exists text. exact Hread.
Qed.

(** C5 on the file that only imports [App]: its one Error is the missing
    application class, and the engine changes nothing. *)
Lemma engine_run_contract_witness :
  errors import_only_checked = [no_app_class_error]
  /\ _attempt_fixes import_only_checked (disk import_only_text)
     = (import_only_checked, disk import_only_text).
Proof.
  split; [reflexivity | ].
  generalize (engine_run_contract parse_samples (init false true) "app.py"
                (disk import_only_text) import_only_text import_only_tree
                import_only_checked eq_refl eq_refl eq_refl).
  destruct (_attempt_fixes import_only_checked (disk import_only_text)) as [v' fs'].
  intros [_ H]. destruct H as [-> ->]; [ | reflexivity].
  assert (Herr : errors import_only_checked = [no_app_class_error])
    by (vm_compute; reflexivity).
  rewrite Herr. intros e [<- | []]. reflexivity.
Defined.

End ValidatorFacts.

(* ===================================================================== *)
(** * The debugger                                                        *)
(* ===================================================================== *)

Module DebugFacts.
Import PyAst Files Debug Samples Specified.

(** *** The live walk *)

(** Induction on live objects, with the hypothesis for every object that
    the walk visits below the one at hand. *)
Lemma LiveNode_ind' (P : LiveNode -> Prop)
    (step : forall cls ident attr_id attr_classes nodes,
        match nodes with Some l => Forall P l | None => True end ->
        P (Live cls ident attr_id attr_classes nodes))
    (unreadable : forall cls ident e, P (Unreadable cls ident e))
    (interrupted : forall cls ident attr_id attr_classes seen e,
        Forall P seen -> P (Interrupted cls ident attr_id attr_classes seen e)) :
  forall node, P node.
Proof.
  fix IH 1. intros [cls ident attr_id attr_classes nodes | cls ident e
                   | cls ident attr_id attr_classes seen e].
  - apply step. destruct nodes as [l | ]; [ | exact I].
    induction l as [|child l IHl]; constructor; [apply IH | exact IHl].
  - apply unreadable.
  - apply interrupted.
    induction seen as [|child l IHl]; constructor; [apply IH | exact IHl].
Qed.

Lemma over_unfold widget_name l :
  (fix over (l0 : list LiveNode) : list WidgetInfo :=
     match l0 with
     | [] => []
     | child :: l' => _extract_widgets_from_node child (Some widget_name) ++ over l'
     end) l
  = over widget_name l.
Proof.
  induction l as [|c l IHl]; [reflexivity | ]. unfold over in *. simpl. rewrite IHl. reflexivity.
Qed.

Lemma extract_unfold cls ident attr_id attr_classes nodes parent :
  _extract_widgets_from_node (Live cls ident attr_id attr_classes nodes) parent
  = let widget_name := widget_name_of cls ident in
    let child_widgets :=
      match nodes with None => [] | Some l => over widget_name l end in
    mkWidget widget_name cls attr_id attr_classes parent (map w_name child_widgets) None true
    :: child_widgets.
Proof.
  cbn [_extract_widgets_from_node]. destruct nodes as [l | ]; [ | reflexivity].
  cbv zeta. rewrite over_unfold. reflexivity.
Qed.

Lemma extract_unfold_interrupted cls ident attr_id attr_classes seen e parent :
  _extract_widgets_from_node (Interrupted cls ident attr_id attr_classes seen e) parent
  = let widget_name := widget_name_of cls ident in
    let child_widgets := over widget_name seen in
    mkWidget widget_name cls attr_id attr_classes parent (map w_name child_widgets) None true
    :: child_widgets.
Proof.
  cbn [_extract_widgets_from_node]. cbv zeta. rewrite over_unfold. reflexivity.
Qed.

(** The walk of an object returns nothing, when its first reads raise, or
    the entry of the object followed by the entries found below it, all of
    which the entry lists as its [children]. *)
Lemma children_are_descendants node parent :
  _extract_widgets_from_node node parent = []
  \/ exists w rest,
       _extract_widgets_from_node node parent = w :: rest
       /\ w_name w = widget_name_of (node_cls node) (node_ident node)
       /\ w_type w = node_cls node
       /\ w_parent w = parent
       /\ w_children w = map w_name rest.
Proof.
  destruct node as [cls ident attr_id attr_classes nodes | cls ident e
                   | cls ident attr_id attr_classes seen e].
  - right. rewrite extract_unfold. cbv zeta. eexists; eexists. repeat split.
  - left. reflexivity.
  - right. rewrite extract_unfold_interrupted. cbv zeta. eexists; eexists. repeat split.
Qed.

Lemma over_parents widget_name l head parent' w :
  Forall (fun node => forall parent w,
            In w (_extract_widgets_from_node node parent) ->
            w_parent w = parent
            \/ exists w', In w' (_extract_widgets_from_node node parent)
                          /\ w_parent w = Some (w_name w')) l ->
  w_name head = widget_name ->
  w_parent head = parent' ->
  In w (over widget_name l) ->
  exists w', In w' (head :: over widget_name l) /\ w_parent w = Some (w_name w').
Proof.
  intros IH Hname _ Hin. unfold over in Hin. apply in_flat_map in Hin.
  destruct Hin as (child & Hchild & Hw).
  rewrite List.Forall_forall in IH.
  destruct (IH child Hchild _ w Hw) as [Hp | (w' & Hw' & Hp)].
  - exists head. split; [left; reflexivity | rewrite Hp, Hname; reflexivity].
  - exists w'. split; [ | exact Hp]. right. unfold over. apply in_flat_map. eauto.
Qed.

(** Every parent recorded by a walk is the parent the walk started with
    or the name of an entry of the walk, also when the walk is cut short
    by an exception. *)
Lemma walk_parents node : forall parent w,
  In w (_extract_widgets_from_node node parent) ->
  w_parent w = parent
  \/ exists w', In w' (_extract_widgets_from_node node parent)
                /\ w_parent w = Some (w_name w').
Proof.
  induction node as [cls ident attr_id attr_classes nodes IH | cls ident e
                    | cls ident attr_id attr_classes seen e IH] using LiveNode_ind';
    intros parent w.
  - rewrite extract_unfold. cbv zeta.
    set (head := mkWidget _ _ _ _ _ _ _ _).
    intros [<- | Hin]; [left; reflexivity | ]. right.
    destruct nodes as [l | ]; [ | destruct Hin].
    apply (over_parents _ l head parent w IH eq_refl eq_refl Hin).
  - intros [].
  - rewrite extract_unfold_interrupted. cbv zeta.
    set (head := mkWidget _ _ _ _ _ _ _ _).
    intros [<- | Hin]; [left; reflexivity | ]. right.
    apply (over_parents _ seen head parent w IH eq_refl eq_refl Hin).
Qed.

(** The parents of a snapshot are present, whatever the live tree. *)
Lemma snapshot_parents_present app_instance :
  parents_present (get_widget_tree app_instance).
Proof.
  unfold parents_present, get_widget_tree. intros w Hin.
  destruct (has_context app_instance); [ | destruct Hin].
  destruct (screen app_instance) as [e | root]; [destruct Hin | ].
  destruct (walk_parents root None w Hin) as [-> | (w' & Hw' & ->)]; [exact I | eauto].
Qed.

(** C3.  For the live screen that holds a container that holds a button,
    the snapshot records the right parents, and every parent is present;
    but the screen lists the button among its children although the
    button's parent is the container, so the children of a widget are not
    the widgets whose parent it is, and the button is in the children of
    two widgets. *)
Theorem snapshot_lists_descendants_as_children :
  let snapshot := get_widget_tree live_app in
  map (fun w => (w_name w, w_parent w, w_children w)) snapshot
  = [ ("Screen_1", None, ["Container_2"; "Button_3"]);
      ("Container_2", Some "Screen_1", ["Button_3"]);
      ("Button_3", Some "Container_2", []) ]
  /\ parents_present snapshot
  /\ ~ children_exact snapshot
  /\ ~ single_parented snapshot.
Proof.
  intros snapshot. split; [reflexivity | split; [apply snapshot_parents_present | split]].
  - intros H.
    destruct (H (nth 0 snapshot (nested EmptyString None))) as [_ Hc]; [left; reflexivity | ].
    destruct (proj1 (Hc "Button_3")) as (c & Hin & Hname & Hparent);
      [right; left; reflexivity | ].
    destruct Hin as [<- | [<- | [<- | []]]]; discriminate.
  - intros H.
    specialize (H (nth 0 snapshot (nested EmptyString None)) (nth 1 snapshot (nested EmptyString None))
                  "Button_3").
    discriminate H; [left | right; left | right; left | left]; reflexivity.
Qed.

(** *** Layout analysis *)

(** C10.  [analyze_layout] raises the [TypeError] of comparing a list
    with an integer for every list of widgets, the empty one included, and
    returns no report.  In [analyze_app_file] the exception reaches the
    generic handler: when the layout analysis is requested for a file that
    is read and parsed, the output is the widget tree, if requested,
    followed by the error line, and never a layout section. *)
Theorem analyze_layout_raises :
  (forall fuel widgets, analyze_layout fuel widgets = inl list_int_order_error)
  /\ (forall parse profile_step fuel app_file config fs text tree,
        read_file fs app_file = inr text ->
        parse text = inr tree ->
        trace_layout config || verbose config = true ->
        analyze_app_file parse profile_step fuel app_file config fs
        = Some ((if trace_widgets config || verbose config
                 then [format_widget_tree (extract_widgets_from_ast tree) 5] else [])
                ++ [analysis_error list_int_order_error])).
Proof.
  assert (H : forall fuel widgets, analyze_layout fuel widgets = inl list_int_order_error)
    by reflexivity.
  split; [exact H | ].
  intros parse profile_step fuel app_file config fs text tree Hread Hparse Hlayout.
  unfold analyze_app_file. rewrite Hread, Hparse, Hlayout, H. reflexivity.
Qed.

(** C10 on the sample file with the options [--inspect --layout]. *)
Lemma analyze_layout_raises_witness :
  analyze_app_file parse_samples [] 0 "app.py" layout_config (disk passing_text)
  = Some [ "No widgets found";
           "Error analyzing app: '>' not supported between instances of 'list' and 'int'" ].
Proof.
  apply (proj2 analyze_layout_raises parse_samples [] 0 "app.py" layout_config
           (disk passing_text) passing_text passing_tree); reflexivity.
Defined.

(** C8.  The depth loop gives 5 for a chain of five nested widgets and 6
    for a chain of six, and the report that follows it would carry the
    deep-nesting Warning for the chain of six; but [analyze_layout] raises
    before it reaches the loop, so the Warning is never produced. *)
Theorem deep_nesting_never_warned :
  max_nesting_depth 6 chain5 = Some 5
  /\ max_nesting_depth 6 chain6 = Some 6
  /\ (exists report, layout_report 6 chain6 chain6 [] false = Some report
                     /\ PyStr.contains deep_nesting_warning report = true)
  /\ (forall fuel, analyze_layout fuel chain6 = inl list_int_order_error).
Proof.
  split; [reflexivity | split; [reflexivity | split; [ | reflexivity]]].
  eexists. split; [vm_compute; reflexivity | vm_compute; reflexivity].
Qed.

(** *** Event tracing *)

Lemma install_lookup {St Ret} (attrs : gmap string (attr St Ret)) name m :
  attrs !! name = Some m ->
  install_handlers attrs !! name
  = Some (if PyStr.startswith "on_" name && callable m then Traced name m else m).
Proof. intros H. unfold install_handlers. rewrite map_lookup_imap, H. reflexivity. Qed.

Lemma install_lookup_None {St Ret} (attrs : gmap string (attr St Ret)) name :
  attrs !! name = None -> install_handlers attrs !! name = None.
Proof. intros H. unfold install_handlers. rewrite map_lookup_imap, H. reflexivity. Qed.

(** On an application that has no [_trace_event] of its own, every traced
    handler raises before anything is logged or delegated. *)
Lemma traced_handler_raises_always {St Ret} (d : TextualDebugger St Ret) name m event :
  trace_events (config d) = true ->
  attrs (app d) !! "_trace_event" = None ->
  attrs (app d) !! name = Some m ->
  PyStr.startswith "on_" name = true ->
  callable m = true ->
  let '(d', r) := handle (_setup_event_tracing d) name event in
  r = inl (no_attribute (app_cls (app d)) "_trace_event")
  /\ app_state (app d') = app_state (app d)
  /\ events_log d' = events_log d.
Proof.
  intros Htrace Hnone Hm Hon Hcall.
  unfold handle, _setup_event_tracing, dispatch. rewrite Htrace. cbn [negb app attrs app_cls app_state].
  rewrite (install_lookup _ _ _ Hm), Hon, Hcall. cbn [andb call].
  rewrite (install_lookup_None _ _ Hnone). repeat split.
Qed.

(** C9.  With event tracing on, calling the installed [on_mount] handler
    raises [AttributeError]: the handler looks [_trace_event] up on the
    application, which has no such method.  No [EventInfo] is recorded
    and the original handler is not called, whereas the untraced
    application runs the handler, and the wrapper of the specification
    would log the event and then run it. *)
Theorem traced_handler_raises :
  let '(d0, r0) := handle counting_debugger "on_mount" mount_event in
  let '(d1, r1) := handle (_setup_event_tracing counting_debugger) "on_mount" mount_event in
  let '(ds, rs) := handle_as_specified counting_debugger 103 "on_mount" mount_event in
  (r0 = inr 1 /\ app_state (app d0) = 1)
  /\ (r1 = inl (no_attribute "MyApp" "_trace_event")
      /\ app_state (app d1) = 0 /\ events_log d1 = [])
  /\ (rs = inr 1 /\ app_state (app ds) = 1
      /\ events_log ds
         = [mkEventInfo "on_mount" (103 - 100) "Mount()" "app" [("type", "Mount")]]).
Proof. vm_compute. repeat split. Qed.
End DebugFacts.

(* ===================================================================== *)
(** * What the passes do to the validator                                 *)
(* ===================================================================== *)

Module PassFacts.
Import PyAst Files Validator Progress FrameFacts.

Lemma advance_refl v : advance v v.
Proof.
  split; [apply frame_refl | ].
  repeat split; try (exists []; rewrite app_nil_r; reflexivity).
Qed.

Lemma advance_trans v1 v2 v3 : advance v1 v2 -> advance v2 v3 -> advance v1 v3.
Proof.
  intros (F1 & [e1 E1] & [w1 W1] & [s1 S1] & [c1 C1] & Q1)
         (F2 & [e2 E2] & [w2 W2] & [s2 S2] & [c2 C2] & Q2).
  split; [eapply frame_trans; eassumption | ].
  repeat split.
  - exists (e1 ++ e2). rewrite E2, E1, app_assoc. reflexivity.
  - exists (w1 ++ w2). rewrite W2, W1, app_assoc. reflexivity.
  - exists (s1 ++ s2). rewrite S2, S1, app_assoc. reflexivity.
  - exists (c1 ++ c2). rewrite C2, C1, app_assoc. reflexivity.
  - intros Hq. destruct F1 as (Hv & _). rewrite Q2 by congruence. auto.
Qed.

Lemma advances_ret {A} (a : A) : advances (ret a).
Proof. intros v. apply advance_refl. Qed.

Lemma advances_raise {A} e : advances (@raise A e).
Proof. intros v. apply advance_refl. Qed.

Lemma advances_get : advances get.
Proof. intros v. apply advance_refl. Qed.

Lemma advances_bind {A B} (m : M A) (k : A -> M B) :
  advances m -> (forall a, advances (k a)) -> advances (bind m k).
Proof.
  intros Hm Hk v. unfold bind. specialize (Hm v).
  destruct (m v) as [v1 [e | a]]; simpl in *; [assumption | ].
  eapply advance_trans; [eassumption | apply Hk].
Qed.

Lemma advances_add_error msg : advances (add_error msg).
Proof.
  intros v. split; [repeat split | ].
  repeat split; simpl; eauto; exists []; rewrite app_nil_r; reflexivity.
Qed.

Lemma advances_add_warning msg : advances (add_warning msg).
Proof.
  intros v. split; [repeat split | ].
  repeat split; simpl; eauto; exists []; rewrite app_nil_r; reflexivity.
Qed.

Lemma advances_add_suggestion msg : advances (add_suggestion msg).
Proof.
  intros v. split; [repeat split | ].
  repeat split; simpl; eauto; exists []; rewrite app_nil_r; reflexivity.
Qed.

Lemma advances_log msg : advances (_log msg).
Proof.
  intros v. split; [apply preserves_log | ].
  unfold _log, modify. simpl. destruct (verbose v) eqn:E; simpl.
  - repeat split; simpl; eauto; try (exists []; rewrite app_nil_r; reflexivity).
    discriminate.
  - repeat split; try (exists []; rewrite app_nil_r; reflexivity).
Qed.

Lemma advances_if {A} (b : bool) (m1 m2 : M A) :
  advances m1 -> advances m2 -> advances (if b then m1 else m2).
Proof. destruct b; auto. Qed.

Lemma advances_when b m : advances m -> advances (when b m).
Proof. destruct b; simpl; [auto | intros _; apply advances_ret]. Qed.

Lemma advances_for_each {A} (l : list A) body :
  (forall x, advances (body x)) -> advances (for_each l body).
Proof.
  intros H. induction l; simpl; [apply advances_ret | ].
  apply advances_bind; auto.
Qed.

Lemma advances_fold_each {A S} (l : list A) (body : S -> A -> M S) :
  (forall s x, advances (body s x)) -> forall s, advances (fold_each l body s).
Proof.
  intros H. induction l; intros s; simpl; [apply advances_ret | ].
  apply advances_bind; auto.
Qed.

Lemma advances_with_tree pass :
  (forall t, advances (pass t)) -> advances (with_tree pass).
Proof.
  intros H. unfold with_tree. apply advances_bind; [apply advances_get | ].
  intros v. destruct (ast_tree v); [apply H | apply advances_ret].
Qed.

Create HintDb advance.
#[export] Hint Resolve advances_ret advances_raise advances_get
  advances_add_error advances_add_warning advances_add_suggestion
  advances_log : advance.

(** One step of a proof that an action only appends. *)
Ltac advance_step :=
  first
    [ apply advances_bind | apply advances_when | apply advances_for_each
    | apply advances_fold_each | apply advances_with_tree
    | solve [auto with advance]
    | match goal with
      | |- advances (match ?x with _ => _ end) => destruct x
      | |- advances (let '(_, _) := ?x in _) => destruct x
      end
    | progress intros ].

Ltac advance_tac f := unfold f; repeat advance_step.

Lemma advances_validate_imports : advances _validate_imports.
Proof. advance_tac _validate_imports. Qed.

Lemma advances_validate_app_methods c : advances (_validate_app_methods c).
Proof. advance_tac _validate_app_methods. unfold check_app_method. repeat advance_step. Qed.

Lemma advances_validate_class_structure : advances _validate_class_structure.
Proof.
  advance_tac _validate_class_structure; apply advances_validate_app_methods.
Qed.

Lemma advances_validate_widgets : advances _validate_widgets.
Proof. advance_tac _validate_widgets. unfold check_widget_node. repeat advance_step. Qed.

Lemma advances_check_widget_in_yield node : advances (_check_widget_in_yield node).
Proof.
  unfold _check_widget_in_yield.
  destruct node as [| | | | | | | | |lineno func args keywords| | |]; auto with advance.
  destruct func; auto with advance.
  repeat apply advances_if; auto with advance.
Qed.

#[export] Hint Resolve advances_check_widget_in_yield : advance.

Lemma advances_validate_layouts : advances _validate_layouts.
Proof. advance_tac _validate_layouts. Qed.

Lemma advances_validate_event_handlers : advances _validate_event_handlers.
Proof. advance_tac _validate_event_handlers; unfold check_handler_node; repeat advance_step. Qed.

Lemma advances_validate_css : advances _validate_css.
Proof.
  advance_tac _validate_css; try (unfold collect_css; repeat advance_step).
  unfold _validate_css_content. repeat advance_step. unfold check_css_line. repeat advance_step.
Qed.

Lemma advances_validate_best_practices : advances _validate_best_practices.
Proof.
  advance_tac _validate_best_practices; unfold _check_compose_best_practices;
    repeat advance_step.
Qed.

Lemma advances_validate_performance : advances _validate_performance.
Proof. advance_tac _validate_performance; unfold check_query_node; repeat advance_step. Qed.

Lemma advances_run_passes : advances run_passes.
Proof.
  unfold run_passes.
  repeat (apply advances_bind; [ | intros _]);
    auto using advances_validate_imports, advances_validate_class_structure,
      advances_validate_widgets, advances_validate_layouts,
      advances_validate_event_handlers, advances_validate_css,
      advances_validate_best_practices, advances_validate_performance.
Qed.

(** X1.  Whatever the tree and whether or not a pass raises, the eight
    passes only append: the errors, warnings, suggestions and console
    lines present before are kept in place at the head of the lists; the
    options, the tree, the path and the fixes-applied list are unchanged;
    and without [verbose] nothing is printed. *)
Theorem passes_only_append (v : TextualValidator) :
  let v' := fst (run_passes v) in
  (exists es, errors v' = errors v ++ es)
  /\ (exists ws, warnings v' = warnings v ++ ws)
  /\ (exists ss, suggestions v' = suggestions v ++ ss)
  /\ (verbose v = false -> console v' = console v)
  /\ fixes_applied v' = fixes_applied v
  /\ file_path v' = file_path v
  /\ ast_tree v' = ast_tree v
  /\ fix_enabled v' = fix_enabled v.
Proof.
  destruct (advances_run_passes v) as ((_ & Hfix & Hfa & Htree & Hpath) & He & Hw & Hs & _ & Hq).
  repeat split; assumption.
Qed.

End PassFacts.

(* ===================================================================== *)
(** * Which passes can raise                                              *)
(* ===================================================================== *)

Module RaiseFacts.
Import PyAst Files Validator Progress FrameFacts MoreSamples Samples.

(** ** Passes that cannot raise *)

Lemma never_raises_ret {A} (a : A) : never_raises (ret a).
Proof. intros v. eexists; reflexivity. Qed.

Lemma never_raises_get : never_raises get.
Proof. intros v. eexists; reflexivity. Qed.

Lemma never_raises_modify f : never_raises (modify f).
Proof. intros v. eexists; reflexivity. Qed.

Lemma never_raises_bind {A B} (m : M A) (k : A -> M B) :
  never_raises m -> (forall a, never_raises (k a)) -> never_raises (bind m k).
Proof.
  intros Hm Hk v. unfold bind. destruct (Hm v) as [a Ha].
  destruct (m v) as [v1 r]. simpl in Ha. subst r. apply Hk.
Qed.

Lemma never_raises_if {A} (b : bool) (m1 m2 : M A) :
  never_raises m1 -> never_raises m2 -> never_raises (if b then m1 else m2).
Proof. destruct b; auto. Qed.

Lemma never_raises_when b m : never_raises m -> never_raises (when b m).
Proof. destruct b; simpl; [auto | intros _; apply never_raises_ret]. Qed.

Lemma never_raises_for_each {A} (l : list A) body :
  (forall x, never_raises (body x)) -> never_raises (for_each l body).
Proof.
  intros H. induction l; simpl; [apply never_raises_ret | ].
  apply never_raises_bind; auto.
Qed.

Lemma never_raises_fold_each {A S} (l : list A) (body : S -> A -> M S) :
  (forall s x, never_raises (body s x)) -> forall s, never_raises (fold_each l body s).
Proof.
  intros H. induction l; intros s; simpl; [apply never_raises_ret | ].
  apply never_raises_bind; auto.
Qed.

Lemma never_raises_with_tree pass :
  (forall t, never_raises (pass t)) -> never_raises (with_tree pass).
Proof.
  intros H. unfold with_tree. apply never_raises_bind; [apply never_raises_get | ].
  intros v. destruct (ast_tree v); [apply H | apply never_raises_ret].
Qed.

Lemma never_raises_add_error msg : never_raises (add_error msg).
Proof. apply never_raises_modify. Qed.

Lemma never_raises_add_warning msg : never_raises (add_warning msg).
Proof. apply never_raises_modify. Qed.

Lemma never_raises_add_suggestion msg : never_raises (add_suggestion msg).
Proof. apply never_raises_modify. Qed.

Lemma never_raises_log msg : never_raises (_log msg).
Proof. apply never_raises_modify. Qed.

Create HintDb total.
#[export] Hint Resolve never_raises_ret never_raises_get never_raises_add_error
  never_raises_add_warning never_raises_add_suggestion never_raises_log : total.

(** One step of a proof that an action returns. *)
Ltac total_step :=
  first
    [ apply never_raises_bind | apply never_raises_when | apply never_raises_for_each
    | apply never_raises_fold_each | apply never_raises_with_tree
    | solve [auto with total]
    | match goal with
      | |- never_raises (match ?x with _ => _ end) => destruct x
      | |- never_raises (let '(_, _) := ?x in _) => destruct x
      end
    | progress intros ].

Ltac total_tac f := unfold f; repeat total_step.

Lemma never_raises_validate_imports : never_raises _validate_imports.
Proof. total_tac _validate_imports. Qed.

Lemma never_raises_validate_app_methods c : never_raises (_validate_app_methods c).
Proof. total_tac _validate_app_methods. unfold check_app_method. repeat total_step. Qed.

Lemma never_raises_validate_class_structure : never_raises _validate_class_structure.
Proof.
  total_tac _validate_class_structure; apply never_raises_validate_app_methods.
Qed.

Lemma never_raises_validate_widgets : never_raises _validate_widgets.
Proof. total_tac _validate_widgets. unfold check_widget_node. repeat total_step. Qed.

Lemma never_raises_check_widget_in_yield node : never_raises (_check_widget_in_yield node).
Proof.
  unfold _check_widget_in_yield.
  destruct node as [| | | | | | | | |lineno func args keywords| | |]; auto with total.
  destruct func; auto with total.
  repeat apply never_raises_if; auto with total.
Qed.

#[export] Hint Resolve never_raises_check_widget_in_yield : total.

Lemma never_raises_validate_layouts : never_raises _validate_layouts.
Proof. total_tac _validate_layouts. Qed.

Lemma never_raises_validate_event_handlers : never_raises _validate_event_handlers.
Proof. total_tac _validate_event_handlers; unfold check_handler_node; repeat total_step. Qed.

Lemma never_raises_validate_best_practices : never_raises _validate_best_practices.
Proof.
  total_tac _validate_best_practices; unfold _check_compose_best_practices;
    repeat total_step.
Qed.

(** X2.  Six of the eight passes return on every tree and every validator:
    the import, class-structure, widget, layout, event-handler and
    best-practice passes never raise.  Only the style pass and the
    performance pass can end a validation with an exception. *)
Theorem six_passes_never_raise :
  never_raises _validate_imports
  /\ never_raises _validate_class_structure
  /\ never_raises _validate_widgets
  /\ never_raises _validate_layouts
  /\ never_raises _validate_event_handlers
  /\ never_raises _validate_best_practices.
Proof.
  repeat split;
    auto using never_raises_validate_imports, never_raises_validate_class_structure,
      never_raises_validate_widgets, never_raises_validate_layouts,
      never_raises_validate_event_handlers, never_raises_validate_best_practices.
Qed.

(** ** Passes that raise *)

Lemma raises_bind {A B} (m : M A) (k : A -> M B) v :
  (forall v1 a, m v = (v1, inr a) -> raises_at (k a) v1) -> raises_at (bind m k) v.
Proof.
  intros H. unfold raises_at, bind. destruct (m v) as [v1 [e | a]] eqn:E.
  - exists e. reflexivity.
  - apply (H v1 a eq_refl).
Qed.

Lemma raises_bind_first {A B} (m : M A) (k : A -> M B) v :
  raises_at m v -> raises_at (bind m k) v.
Proof.
  intros [e He]. unfold raises_at, bind. destruct (m v) as [v1 r]. simpl in He. subst r.
  exists e. reflexivity.
Qed.

(** A loop raises when one of its turns raises whatever the state. *)
Lemma fold_each_raises {A S} (l : list A) (body : S -> A -> M S) x :
  In x l -> (forall s v, raises_at (body s x) v) ->
  forall s v, raises_at (fold_each l body s) v.
Proof.
  intros Hin Hx. induction l as [|a l IH]; [destruct Hin | ].
  intros s v. cbn [fold_each]. destruct Hin as [-> | Hin].
  - apply raises_bind_first. apply Hx.
  - apply raises_bind. intros v1 s1 _. apply IH. assumption.
Qed.

Lemma for_each_raises {A} (l : list A) (body : A -> M unit) x :
  In x l -> (forall v, raises_at (body x) v) -> forall v, raises_at (for_each l body) v.
Proof.
  intros Hin Hx. induction l as [|a l IH]; [destruct Hin | ].
  intros v. cbn [for_each]. destruct Hin as [-> | Hin].
  - apply raises_bind_first. apply Hx.
  - apply raises_bind. intros v1 s1 _. apply IH. assumption.
Qed.

Lemma check_query_node_raises node count v :
  chained node -> raises_at (check_query_node count node) v.
Proof.
  intros (lineno & value & args & keywords & -> & Hvalue).
  unfold raises_at. cbn [check_query_node]. 
  destruct value; try (eexists; reflexivity).
  exfalso. eapply Hvalue. reflexivity.
Qed.

Lemma validate_performance_raises v tree node :
  ast_tree v = Some tree -> subnode node tree -> chained node ->
  raises_at _validate_performance v.
Proof.
  intros Htree Hsub Hbad. unfold _validate_performance, with_tree.
  apply raises_bind. intros v1 v2 [= <- <-]. rewrite Htree.
  apply raises_bind_first. apply fold_each_raises with (x := node).
  - apply AstFacts.walk_complete. assumption.
  - intros s w. apply check_query_node_raises. assumption.
Qed.

Lemma validate_css_content_raises value v :
  (forall s, value <> CStr s) -> raises_at (_validate_css_content value) v.
Proof.
  intros H. destruct value; try (eexists; reflexivity). exfalso. eapply H. reflexivity.
Qed.

Lemma collect_css_keeps nodes : forall acc v,
  raises_at (fold_each nodes collect_css acc) v
  \/ exists v' css,
       fold_each nodes collect_css acc v = (v', inr css)
       /\ (forall c, In c acc -> In c css)
       /\ (forall targets c, In (Assign (Name "CSS" :: targets) (Constant c)) nodes ->
                             In c css).
Proof.
  induction nodes as [|n nodes IH]; intros acc v.
  - right. exists v, acc. split; [reflexivity | ]. split; [auto | ]. intros ? ? [].
  - cbn [fold_each]. unfold bind at 1.
    destruct (collect_css acc n v) as [v1 [e | acc1]] eqn:E.
    + left. unfold raises_at, bind. rewrite E. eexists; reflexivity.
    + assert (Hacc : (forall c, In c acc -> In c acc1)
                     /\ (forall targets c, n = Assign (Name "CSS" :: targets) (Constant c) ->
                                           In c acc1)).
      { destruct n as [| | | | | |tgts val| | | | | |];
          try (injection E as <- <-; split; [auto | discriminate]).
        cbn [collect_css] in E.
        destruct tgts as [|t ts]; [discriminate | ].
        destruct t as [| | | | | | |id| | | | |];
          try (injection E as <- <-; split; [auto | discriminate]).
        destruct val as [| | | | | | | | | |cst| |];
          try (injection E as <- <-; split; [auto | discriminate]).
        destruct (String.eqb id "CSS") eqn:Hid.
        - injection E as <- <-. split.
          + intros c Hc. apply in_or_app. left; assumption.
          + intros targets c [= _ _ <-]. apply in_or_app. right. left. reflexivity.
        - injection E as <- <-. split; [auto | ].
          intros targets c [= -> _ _]. discriminate. }
      destruct Hacc as [Hkeep Hnew].
      destruct (IH acc1 v1) as [Hr | (v' & css & Hrun & Hk & Hn)].
      * left. unfold raises_at, bind. rewrite E. exact Hr.
      * right. exists v', css. unfold bind. rewrite E. split; [exact Hrun | ].
        split; [auto | ].
        intros targets c [Heq | Hin]; [apply Hk; eapply Hnew; exact Heq | eauto].
Qed.

Lemma validate_css_raises v tree node :
  ast_tree v = Some tree -> subnode node tree -> bad_css node ->
  raises_at _validate_css v.
Proof.
  intros Htree Hsub (targets & value & -> & Hvalue). unfold _validate_css, with_tree.
  apply raises_bind. intros v1 v2 [= <- <-]. rewrite Htree.
  destruct (collect_css_keeps (walk tree) [] v) as [Hr | (v' & css & Hrun & _ & Hn)].
  - apply raises_bind_first. exact Hr.
  - apply raises_bind. intros v1 css1. rewrite Hrun. intros [= <- <-].
    apply raises_bind_first. apply for_each_raises with (x := value).
    + eapply Hn. apply AstFacts.walk_complete. eassumption.
    + intros w. apply validate_css_content_raises. assumption.
Qed.

(** A pass that keeps the tree hands it on to the passes after it. *)
Lemma raises_after {A} (m : M unit) (k : M A) v tree :
  preserves m -> ast_tree v = Some tree ->
  (forall v1, ast_tree v1 = Some tree -> raises_at k v1) ->
  raises_at (bind m (fun _ => k)) v.
Proof.
  intros Hm Htree Hk. apply raises_bind. intros v1 a E. apply Hk.
  specialize (Hm v). rewrite E in Hm. destruct Hm as (_ & _ & _ & Ht & _).
  simpl in Ht. congruence.
Qed.

Lemma run_passes_raises v tree node :
  ast_tree v = Some tree -> subnode node tree -> chained node \/ bad_css node ->
  raises_at run_passes v.
Proof.
  intros Htree Hsub Hbad. unfold run_passes.
  eapply raises_after; [apply preserves_validate_imports | eassumption | intros v1 H1].
  eapply raises_after; [apply preserves_validate_class_structure | eassumption | intros v2 H2].
  eapply raises_after; [apply preserves_validate_widgets | eassumption | intros v3 H3].
  eapply raises_after; [apply preserves_validate_layouts | eassumption | intros v4 H4].
  eapply raises_after; [apply preserves_validate_event_handlers | eassumption | intros v5 H5].
  destruct Hbad as [Hq | Hc].
  - eapply raises_after; [apply preserves_validate_css | eassumption | intros v6 H6].
    eapply raises_after; [apply preserves_validate_best_practices | eassumption | intros v7 H7].
    eapply validate_performance_raises; eassumption.
  - apply raises_bind_first. eapply validate_css_raises; eassumption.
Qed.

Lemma validate_file_aborts parse v path fs text tree node :
  read_file fs path = inr text ->
  parse text = inr tree ->
  subnode node tree -> chained node \/ bad_css node ->
  exists v1 e, validate_file parse v path fs = (false, on_exception e v1, fs).
Proof.
  intros Hread Hparse Hsub Hbad. unfold validate_file.
  rewrite (ValidatorFacts.read_file_exists _ _ _ Hread). cbn [negb]. rewrite Hread, Hparse.
  destruct (run_passes_raises (set_ast_tree (Some tree) (set_file_path (Some path) v))
              tree node eq_refl Hsub Hbad) as [e He].
  destruct (run_passes _) as [v1 r]. simpl in He. subst r. exists v1, e. reflexivity.
Qed.

(** X3.  A file that calls [query_one] on anything but a plain name, as in
    [self.screen.query_one(...)], aborts the validation: the performance
    pass reads [node.func.value.id], which only a name has.  [validate_file]
    returns [False], the exception is reported as an Error, and the file
    is not touched, with or without the fix option. *)
Theorem chained_query_aborts
    (parse : string -> result ast) (v : TextualValidator) (path : string)
    (fs : FileSystem) (text : string) (tree : ast)
    (lineno : nat) (value : ast) (args keywords : list ast) :
  read_file fs path = inr text ->
  parse text = inr tree ->
  subnode (Call lineno (Attribute value "query_one") args keywords) tree ->
  (forall id, value <> Name id) ->
  exists v1 e,
    validate_file parse v path fs = (false, on_exception e v1, fs)
    /\ errors (on_exception e v1) <> [].
Proof.
  intros Hread Hparse Hsub Hvalue.
  destruct (validate_file_aborts parse v path fs text tree _ Hread Hparse Hsub) as (v1 & e & H).
  - left. exists lineno, value, args, keywords. split; [reflexivity | exact Hvalue].
  - exists v1, e. split; [exact H | apply ValidatorFacts.on_exception_errors].
Qed.

(** X3 on the file [self.screen.query_one('x')]. *)
Lemma chained_query_aborts_witness :
  exists v1 e,
    validate_file parse_more (init false true) "app.py" (disk chained_query_text)
    = (false, on_exception e v1, disk chained_query_text)
    /\ errors (on_exception e v1) <> [].
Proof.
  apply (chained_query_aborts parse_more (init false true) "app.py"
           (disk chained_query_text) chained_query_text chained_query_tree
           1 (Attribute (Name "self") "screen") [Constant (CStr "x")] []).
  - reflexivity.
  - reflexivity.
  - apply AstFacts.walk_complete. vm_compute. tauto.
  - discriminate.
Defined.

(** The Error the run on that file ends with. *)
Example chained_query_error :
  let '(passed, v', _) :=
    validate_file parse_more (init false false) "app.py" (disk chained_query_text) in
  passed = false
  /\ last (errors v') = Some "Validation error: 'Attribute' object has no attribute 'id'".
Proof. vm_compute. split; reflexivity. Qed.

(** X4.  A file that assigns to [CSS] a constant that is not a string, a
    number or a byte string for instance, aborts the validation: the style
    pass calls [css.split] with a string separator on it.  [validate_file]
    returns [False], the exception is reported as an Error, and the file
    is not touched. *)
Theorem non_string_css_aborts
    (parse : string -> result ast) (v : TextualValidator) (path : string)
    (fs : FileSystem) (text : string) (tree : ast)
    (targets : list ast) (value : constant) :
  read_file fs path = inr text ->
  parse text = inr tree ->
  subnode (Assign (Name "CSS" :: targets) (Constant value)) tree ->
  (forall s, value <> CStr s) ->
  exists v1 e,
    validate_file parse v path fs = (false, on_exception e v1, fs)
    /\ errors (on_exception e v1) <> [].
Proof.
  intros Hread Hparse Hsub Hvalue.
  destruct (validate_file_aborts parse v path fs text tree _ Hread Hparse Hsub) as (v1 & e & H).
  - right. exists targets, value. split; [reflexivity | exact Hvalue].
  - exists v1, e. split; [exact H | apply ValidatorFacts.on_exception_errors].
Qed.

(** X4 on the file [CSS = 5]. *)
Lemma non_string_css_aborts_witness :
  exists v1 e,
    validate_file parse_more (init false false) "app.py" (disk numeric_css_text)
    = (false, on_exception e v1, disk numeric_css_text)
    /\ errors (on_exception e v1) <> [].
Proof.
  apply (non_string_css_aborts parse_more (init false false) "app.py"
           (disk numeric_css_text) numeric_css_text numeric_css_tree
           [] (CNonStr "int")).
  - reflexivity.
  - reflexivity.
  - apply AstFacts.walk_complete. vm_compute. tauto.
  - discriminate.
Defined.

End RaiseFacts.

(* ===================================================================== *)
(** * Files and the repair                                                *)
(* ===================================================================== *)

Module FileFacts.
Import PyAst Files Validator Progress FrameFacts MoreSamples Samples StrFacts.

(** ** Runs that end before the passes *)

(** X5.  When the file does not exist, cannot be read, or does not parse,
    [validate_file] returns [False] after appending exactly one Error,
    [File not found], [Validation error] or [Syntax error] with the text of
    the exception; no pass runs, so warnings, suggestions and applied fixes
    are as before, and the file system is not touched. *)
Theorem validation_stops_before_passes
    (parse : string -> result ast) (v : TextualValidator) (path : string)
    (fs : FileSystem) :
  let v0 := set_file_path (Some path) v in
  (fs !! path = None ->
   validate_file parse v path fs
   = (false, set_errors (errors v ++ [("File not found: " ++ path)%string]) v0, fs))
  /\ (forall e, fs !! path <> None -> read_file fs path = inl e ->
        exn_cls e <> SyntaxError ->
        validate_file parse v path fs
        = (false, set_errors (errors v ++ [("Validation error: " ++ exn_msg e)%string]) v0, fs))
  /\ (forall text msg, read_file fs path = inr text ->
        parse text = inl (Exn SyntaxError msg) ->
        validate_file parse v path fs
        = (false, set_errors (errors v ++ [("Syntax error: " ++ msg)%string]) v0, fs)).
Proof.
  intros v0. split; [ | split].
  - intros Hnone. unfold validate_file, exists_. rewrite Hnone. reflexivity.
  - intros e Hsome Hread Hcls. unfold validate_file, exists_.
    destruct (fs !! path) eqn:Hl; [ | contradiction]. cbn [negb]. rewrite Hread.
    unfold on_exception. destruct (exn_cls e); try reflexivity. contradiction.
  - intros text msg Hread Hparse. unfold validate_file.
    rewrite (ValidatorFacts.read_file_exists _ _ _ Hread). cbn [negb].
    rewrite Hread, Hparse. reflexivity.
Qed.

(** X5 on a path that the file system does not hold. *)
Lemma validation_stops_before_passes_witness :
  validate_file parse_samples (init false true) "gone.py" (disk screen_text)
  = (false,
     set_errors ["File not found: gone.py"]
                (set_file_path (Some "gone.py") (init false true)),
     disk screen_text).
Proof.
  apply (proj1 (validation_stops_before_passes parse_samples (init false true)
                  "gone.py" (disk screen_text))).
  reflexivity.
Defined.

(** ** What validation writes *)

Lemma attempt_fixes_other_paths v fs path p :
  file_path v = Some path -> p <> path ->
  snd (_attempt_fixes v fs) !! p = fs !! p.
Proof.
  intros Hpath Hne. unfold _attempt_fixes. rewrite Hpath.
  destruct (read_file fs path) as [e | original]; [reflexivity | ].
  destruct (negb _); [ | reflexivity].
  unfold write_file. destruct (fs !! path) as [f | ].
  - destruct (f_write_error f); [reflexivity | ]. simpl.
    apply lookup_insert_ne. congruence.
  - simpl. apply lookup_insert_ne. congruence.
Qed.

(** The file system after a run is the one before, or the one the engine
    left. *)
Lemma validate_file_disk parse v path fs :
  snd (validate_file parse v path fs) = fs
  \/ exists v1, file_path v1 = Some path /\ fix_enabled v1 = fix_enabled v
                /\ fix_enabled v1 = true
                /\ snd (validate_file parse v path fs) = snd (_attempt_fixes v1 fs).
Proof.
  unfold validate_file.
  destruct (negb (exists_ fs path)); [left; reflexivity | ].
  destruct (read_file fs path) as [e | text]; [left; reflexivity | ].
  destruct (parse text) as [e | tree]; [left; reflexivity | ].
  pose proof (preserves_run_passes (set_ast_tree (Some tree) (set_file_path (Some path) v)))
    as (_ & Hfix & _ & _ & Hpath).
  destruct (run_passes _) as [v1 [e | []]]; [left; reflexivity | ].
  simpl in Hfix, Hpath.
  destruct (fix_enabled v1) eqn:Hf; [ | left; reflexivity].
  destruct (negb (Nat.eqb (length (errors v1)) 0)); [ | left; reflexivity].
  right. exists v1. cbn [andb]. destruct (_attempt_fixes v1 fs) as [v2 fs2].
  repeat split; auto. congruence.
Qed.

(** X6.  Without the fix option [validate_file] never writes: whatever the
    file holds and however the run ends, the file system afterwards is the
    one before. *)
Theorem no_fix_no_write
    (parse : string -> result ast) (v : TextualValidator) (path : string)
    (fs : FileSystem) :
  fix_enabled v = false ->
  snd (validate_file parse v path fs) = fs.
Proof.
  intros Hfix. destruct (validate_file_disk parse v path fs) as [H | (v1 & _ & H1 & H2 & _)].
  - exact H.
  - congruence.
Qed.

(** X6 on the file whose import the fix option would rewrite. *)
Lemma no_fix_no_write_witness :
  snd (validate_file parse_samples (init false false) "app.py" (disk screen_text))
  = disk screen_text.
Proof.
  apply (no_fix_no_write parse_samples (init false false) "app.py" (disk screen_text)).
  reflexivity.
Defined.

Lemma validate_file_other_paths parse v path fs p :
  p <> path -> snd (validate_file parse v path fs) !! p = fs !! p.
Proof.
  intros Hne. destruct (validate_file_disk parse v path fs) as [-> | (v1 & Hp & _ & _ & ->)].
  - reflexivity.
  - apply (attempt_fixes_other_paths v1 fs path p Hp Hne).
Qed.



(** ** The repair *)

Lemma find_import_line_none lines : forall i,
  (forall l, In l lines -> PyStr.startswith import_prefix l = false) ->
  find_import_line i lines = None.
Proof.
  induction lines as [|l lines IH]; intros i H; [reflexivity | ].
  cbn [find_import_line]. rewrite (H l) by (left; reflexivity).
  apply IH. intros l' Hl'. apply H. right; assumption.
Qed.

(** X8.  When no line of the file starts with [from textual.app import],
    the repair puts [from textual.app import App, ComposeResult] in front
    as a new first line and keeps the rest of the text character for
    character. *)
Theorem fix_prepends_import (text : string) :
  (forall l, In l (PyStr.split PyStr.newline text) ->
             PyStr.startswith import_prefix l = false) ->
  _fix_missing_imports text
  = ("from textual.app import App, ComposeResult" ++ nlsep ++ text)%string.
Proof.
  intros H. unfold _fix_missing_imports. rewrite (find_import_line_none _ 0 H).
  pose proof (split_nonempty PyStr.newline text) as Hne.
  pose proof (join_split PyStr.newline text) as Hjoin.
  destruct (PyStr.split PyStr.newline text) as [|l lines]; [contradiction | ].
  unfold PyStr.join, nlsep in *. rewrite concat_cons2, Hjoin. reflexivity.
Qed.

(** X8 on a file of two lines. *)
Lemma fix_prepends_import_witness :
  _fix_missing_imports (line "import os" ++ "x = 1")
  = (line "from textual.app import App, ComposeResult" ++ line "import os" ++ "x = 1")%string.
Proof.
  rewrite (fix_prepends_import (line "import os" ++ "x = 1")).
  - reflexivity.
  - intros l Hl. vm_compute in Hl. destruct Hl as [<- | [<- | []]]; reflexivity.
Defined.

(** X9.  The repair is idempotent: repairing a repaired text gives it back,
    for every text; and the engine run on a file that holds a repaired text
    writes nothing, appends no FixRecord and leaves the validator as it is,
    whatever Errors it holds. *)
Theorem repair_is_idempotent :
  (forall text, _fix_missing_imports (_fix_missing_imports text) = _fix_missing_imports text)
  /\ (forall v fs p text,
        file_path v = Some p ->
        read_file fs p = inr (_fix_missing_imports text) ->
        _attempt_fixes v fs = (v, fs)).
Proof.
  split.
  - apply ValidatorFacts.fix_missing_imports_idempotent.
  - intros v fs p text Hp Hread. unfold _attempt_fixes.
    rewrite Hp, Hread, ValidatorFacts.apply_fixes_after_fix, String.eqb_refl. reflexivity.
Qed.

(** X9 on the repaired sample file, with the missing-import Error still
    reported. *)
Lemma repair_is_idempotent_witness :
  _attempt_fixes screen_fixed_checked (disk (_fix_missing_imports screen_text))
  = (screen_fixed_checked, disk (_fix_missing_imports screen_text)).
Proof.
  apply (proj2 repair_is_idempotent screen_fixed_checked
           (disk (_fix_missing_imports screen_text)) "app.py" screen_text); reflexivity.
Defined.

End FileFacts.

(* ===================================================================== *)
(** * What the passes report                                              *)
(* ===================================================================== *)

Module PassResults.
Import PyAst Files Validator Progress FrameFacts MoreSamples Samples StrFacts AstFacts.
Import PassFacts.

(** ** Class structure *)

Lemma filter_none {A} (f : A -> bool) (l : list A) :
  (forall x, In x l -> f x = false) -> List.filter f l = [].
Proof.
  induction l as [|x l IH]; intros H; [reflexivity | ].
  simpl. rewrite (H x) by (left; reflexivity).
  apply IH. intros y Hy. apply H. right; assumption.
Qed.

(** X10.  When no class of the tree, at any depth, has an attribute base
    [x.App] or [App.x], the class pass appends the Error
    [No class inheriting from App found] and does nothing else: no method
    of any class is looked at, so no other Error, Warning or Suggestion
    comes from it. *)
Theorem no_app_class_single_error (v : TextualValidator) (tree : ast) :
  ast_tree v = Some tree ->
  (forall n, subnode n tree -> is_app_class n = false) ->
  _validate_class_structure v
  = (set_errors (errors v ++ [no_app_class_error]) v, inr tt).
Proof.
  intros Htree Hnone. unfold _validate_class_structure, with_tree, bind, get.
  rewrite Htree, filter_none; [reflexivity | ].
  intros n Hn. apply Hnone, walk_complete, Hn.
Qed.

(** X10 on the class written [class MyApp(App)]. *)
Lemma no_app_class_single_error_witness :
  _validate_class_structure (with_tree_of my_app)
  = (set_errors [no_app_class_error] (with_tree_of my_app), inr tt).
Proof.
  apply (no_app_class_single_error (with_tree_of my_app) my_app).
  - reflexivity.
  - intros n Hn. apply walk_complete in Hn. vm_compute in Hn.
    repeat (destruct Hn as [<- | Hn]; [reflexivity | ]). destruct Hn.
Defined.

(** ** Methods of an application class *)

Lemma check_app_method_run cname b node v :
  exists v', check_app_method cname b node v = (v', inr (b || is_compose_def node))
             /\ errors v' = errors v.
Proof.
  destruct node; simpl; try (exists v; rewrite orb_false_r; split; reflexivity).
  destruct (String.eqb name "compose").
  - rewrite orb_true_r. unfold bind, when, ret, add_warning, modify.
    destruct (is_none returns), (negb (_check_return_annotation returns "ComposeResult"));
      eexists; split; reflexivity.
  - rewrite orb_false_r. destruct (String.eqb name "on_mount"); [exists v; split; reflexivity | ].
    destruct (String.eqb name "on_key"); eexists; split; reflexivity.
Qed.

Lemma fold_check_app_method cname body : forall b v,
  exists v', fold_each body (check_app_method cname) b v
             = (v', inr (b || existsb is_compose_def body))
             /\ errors v' = errors v.
Proof.
  induction body as [|node body IH]; intros b v.
  - exists v. simpl. rewrite orb_false_r. split; reflexivity.
  - destruct (check_app_method_run cname b node v) as (v1 & Hrun & He1).
    destruct (IH (b || is_compose_def node) v1) as (v2 & Hfold & He2).
    exists v2. cbn [fold_each]. unfold bind at 1. rewrite Hrun, Hfold.
    cbn [existsb]. rewrite orb_assoc. split; [reflexivity | congruence].
Qed.

(** X11.  The method pass of an application class never raises, and the
    only Error it can append is the missing-compose one: it does so exactly
    when no statement directly in the class body is a [def compose];
    unannotated or wrongly annotated methods give Warnings only. *)
Theorem compose_error_iff_no_compose_def
    (cname : string) (bases keywords body decorators : list ast)
    (v : TextualValidator) :
  let run := _validate_app_methods (ClassDef cname bases keywords body decorators) v in
  snd run = inr tt
  /\ errors (fst run)
     = errors v
       ++ (if existsb is_compose_def body then []
           else [("App class " ++ cname ++ " is missing 'compose' method")%string]).
Proof.
  cbn zeta. unfold _validate_app_methods.
  destruct (fold_check_app_method cname body false v) as (v1 & Hfold & He).
  unfold bind. rewrite Hfold. cbn [orb].
  unfold when, add_error, _log, modify, ret.
  destruct (existsb is_compose_def body); cbn [negb fst snd].
  - split; [reflexivity | ]. rewrite app_nil_r. destruct (verbose v1); simpl; exact He.
  - split; [reflexivity | ]. destruct (verbose _); simpl; rewrite He; reflexivity.
Qed.

(** ** Imports *)

Lemma collect_import_mono x acc node : x ∈ acc -> x ∈ collect_import acc node.
Proof.
  intros H. destruct node; simpl; try assumption.
  - set_solver.
  - destruct module as [m | ]; [ | assumption].
    destruct (PyStr.contains "textual" m); set_solver.
Qed.

Lemma collect_imports_mono x l : forall acc,
  x ∈ acc -> x ∈ fold_left collect_import l acc.
Proof.
  induction l as [|n l IH]; intros acc H; [exact H | ].
  simpl. apply IH, collect_import_mono, H.
Qed.

Lemma collect_imports_visit x node l : forall acc,
  In node l -> (forall acc', x ∈ collect_import acc' node) ->
  x ∈ fold_left collect_import l acc.
Proof.
  induction l as [|n l IH]; intros acc Hin Hnode; [destruct Hin | ].
  simpl. destruct Hin as [-> | Hin].
  - apply collect_imports_mono, Hnode.
  - apply IH; assumption.
Qed.

Lemma alias_names_In name asname names :
  In (alias name asname) names -> name ∈ alias_names names.
Proof.
  intros H. unfold alias_names. apply list_elem_of_omap.
  exists (alias name asname). split; [ | reflexivity].
  apply list_elem_of_In, H.
Qed.

(** X12.  The import pass appends no Error as soon as one import
    statement anywhere in the tree, also inside a function or a class,
    imports the name [App]: either [import App], or [from m import App]
    with a module path [m] that contains [textual].  The alias given with
    [as] plays no part. *)
Theorem app_import_accepted
    (v : TextualValidator) (tree stmt : ast) (names : list ast)
    (asname : option string) :
  ast_tree v = Some tree ->
  subnode stmt tree ->
  (stmt = Import_ names
   \/ exists module, stmt = ImportFrom (Some module) names
                     /\ PyStr.contains "textual" module = true) ->
  In (alias "App" asname) names ->
  errors (fst (_validate_imports v)) = errors v.
Proof.
  intros Htree Hsub Hstmt Hin.
  assert (Happ : "App" ∈ fold_left collect_import (walk tree) ∅).
  { apply (collect_imports_visit _ stmt).
    - apply walk_complete, Hsub.
    - intros acc. pose proof (alias_names_In _ _ _ Hin) as Ha.
      destruct Hstmt as [-> | (m & -> & Hm)]; simpl; [ | rewrite Hm];
        apply elem_of_union_r, elem_of_list_to_set, Ha. }
  unfold _validate_imports, with_tree, bind at 1, get. rewrite Htree.
  unfold mem at 1. rewrite (bool_decide_eq_true_2 _ Happ). cbn [negb andb when].
  unfold bind, ret, when, add_warning, _log, modify.
  match goal with |- context [negb ?a && negb ?b] => destruct (negb a && negb b) end;
    unfold ret; cbn [fst]; simpl verbose; destruct (verbose v); reflexivity.
Qed.

(** X12 on [from textual.app import App]. *)
Lemma app_import_accepted_witness :
  errors (fst (_validate_imports (with_tree_of import_only_tree))) = [].
Proof.
  apply (app_import_accepted (with_tree_of import_only_tree) import_only_tree
           (ImportFrom (Some "textual.app") [alias "App" None]) [alias "App" None] None).
  - reflexivity.
  - eapply subnode_child; [left; reflexivity | apply subnode_refl].
  - right. exists "textual.app". split; reflexivity.
  - left; reflexivity.
Defined.

(** ** Event handlers *)

Lemma dict_set_In k e d : In (k, e) (dict_set k e d).
Proof.
  induction d as [|[k' e'] d IH]; simpl; [left; reflexivity | ].
  destruct (String.eqb k' k); [left; reflexivity | right; exact IH].
Qed.

Lemma dict_set_other k e k' e' d :
  k' <> k -> In (k', e') d -> In (k', e') (dict_set k e d).
Proof.
  intros Hne. induction d as [|[k1 e1] d IH]; simpl; [tauto | ].
  intros [Heq | Hin].
  - injection Heq as -> ->. destruct (String.eqb_spec k' k); [contradiction | left; reflexivity].
  - destruct (String.eqb k1 k); right; [exact Hin | exact (IH Hin)].
Qed.

Lemma valid_events_capitalised tag :
  PyStr.lower tag = tag -> mem tag VALID_EVENTS = false.
Proof.
  intros Hlow. unfold mem. apply bool_decide_eq_false_2. intros Hin.
  unfold VALID_EVENTS in Hin. apply elem_of_list_to_set, list_elem_of_In in Hin.
  simpl in Hin.
  repeat (destruct Hin as [<- | Hin]; [vm_compute in Hlow; discriminate | ]).
  destruct Hin.
Qed.

Section Handler.

Variables (name tag more : string).
Hypothesis Hname : name = ("on_" ++ tag ++ "_" ++ more)%string.
Hypothesis Htag : PyStr.count underscore tag = 0.

Lemma handler_parts :
  PyStr.startswith "on_" name = true
  /\ exists part rest, PyStr.split underscore (PyStr.drop 3 name) = tag :: part :: rest.
Proof.
  subst name. rewrite !append_cons, !append_nil. split.
  - unfold PyStr.startswith. simpl. apply prefix_empty.
  - cbn [PyStr.drop].
    change (tag ++ String "_" more)%string with (tag ++ String underscore more)%string.
    rewrite (split_app_free underscore tag more Htag).
    pose proof (split_nonempty underscore more) as Hne.
    destruct (PyStr.split underscore more) as [|part rest]; [contradiction | ].
    exists part, rest. reflexivity.
Qed.

Lemma check_handler_node_run d node v :
  exists v' d', check_handler_node d node v = (v', inr d')
    /\ advance v v'
    /\ (In (name, tag) d -> In (name, tag) d')
    /\ (forall p a r b ds rt, node = FunctionDef name p a r b ds rt -> In (name, tag) d').
Proof.
  destruct handler_parts as (Hstart & part & rest & Hsplit).
  destruct node as [| | | | |fname p a r b ds rt| | | | | | |];
    try (exists v, d;
         split; [reflexivity | split; [apply advance_refl | split; [tauto | discriminate]]]).
  cbn [check_handler_node].
  destruct (PyStr.startswith "on_" fname) eqn:Hon.
  - set (d' := match PyStr.split underscore (PyStr.drop 3 fname) with
               | event_type :: _ :: _ => dict_set fname event_type d
               | _ => d
               end).
    assert (Hd : (In (name, tag) d -> In (name, tag) d')
                 /\ (fname = name -> In (name, tag) d')).
    { subst d'. split.
      - intros Hin. destruct (string_dec fname name) as [-> | Hne].
        + rewrite Hsplit. apply dict_set_In.
        + destruct (PyStr.split underscore (PyStr.drop 3 fname)) as [|e [|e' es]];
            try exact Hin.
          apply dict_set_other; [congruence | exact Hin].
      - intros ->. rewrite Hsplit. apply dict_set_In. }
    destruct Hd as (Hkeep & Hnew).
    assert (Hlast : forall p' a' r' b' ds' rt',
               FunctionDef fname p a r b ds rt = FunctionDef name p' a' r' b' ds' rt' ->
               In (name, tag) d').
    { intros p' a' r' b' ds' rt' Heq. apply Hnew. congruence. }
    destruct a as [|a0 al].
    + eexists _, d'.
      split; [reflexivity | split; [apply (advances_add_warning _ v) | split; assumption]].
    + exists v, d'.
      split; [reflexivity | split; [apply advance_refl | split; assumption]].
  - exists v, d. split; [reflexivity | split; [apply advance_refl | split; [tauto | ]]].
    intros p' a' r' b' ds' rt' Heq. injection Heq as -> _ _ _ _ _ _. congruence.
Qed.

Lemma fold_check_handler l : forall d v,
  exists v' d', fold_each l check_handler_node d v = (v', inr d')
    /\ advance v v'
    /\ (In (name, tag) d -> In (name, tag) d')
    /\ (forall p a r b ds rt, In (FunctionDef name p a r b ds rt) l -> In (name, tag) d').
Proof.
  induction l as [|node l IH]; intros d v.
  - exists v, d.
    split; [reflexivity | split; [apply advance_refl | split; [tauto | intros; contradiction]]].
  - destruct (check_handler_node_run d node v) as (v1 & d1 & Hrun & Hadv1 & Hkeep1 & Hnew1).
    destruct (IH d1 v1) as (v2 & d2 & Hfold & Hadv2 & Hkeep2 & Hnew2).
    exists v2, d2. cbn [fold_each]. unfold bind at 1. rewrite Hrun, Hfold.
    split; [reflexivity | split; [ | split]].
    + eapply advance_trans; eassumption.
    + tauto.
    + intros p a r b ds rt [Heq | Hin]; [eapply Hkeep2, Hnew1; exact Heq | eapply Hnew2, Hin].
Qed.

Lemma report_unknown_events d : forall v,
  In (name, tag) d -> mem tag VALID_EVENTS = false ->
  let body := fun '(handler, event_type) =>
    when (negb (mem event_type VALID_EVENTS))
         (add_warning ("Unknown event type '" ++ event_type ++
                       "' in handler '" ++ handler ++ "'")) in
  exists v', for_each d body v = (v', inr tt)
    /\ In ("Unknown event type '" ++ tag ++ "' in handler '" ++ name ++ "'")%string
          (warnings v').
Proof.
  intros v Hin Hmem body.
  assert (Hbody : forall x, advances (body x) /\ never_raises (body x)).
  { intros [h e]. unfold body. split.
    - apply advances_when, advances_add_warning.
    - intros w. destruct (negb _); exists tt; reflexivity. }
  assert (Hrest : forall l w, exists w', for_each l body w = (w', inr tt) /\ advance w w').
  { induction l as [|x l IH]; intros w.
    - exists w. split; [reflexivity | apply advance_refl].
    - cbn [for_each]. unfold bind at 1.
      destruct (Hbody x) as (Ha & Hr). specialize (Ha w). destruct (Hr w) as ([] & Hr').
      destruct (body x w) as [w1 r1]. simpl in Hr', Ha. subst r1.
      destruct (IH w1) as (w2 & Hrun & Hadv). exists w2.
      split; [exact Hrun | eapply advance_trans; eassumption]. }
  revert v. induction d as [|x d IH]; intros v; [destruct Hin | ].
  destruct Hin as [-> | Hin].
  - cbn [for_each]. unfold bind at 1. cbn [body]. rewrite Hmem. cbn [negb when].
    unfold add_warning at 1, modify at 1.
    match goal with |- context [for_each d body ?w] =>
      destruct (Hrest d w) as (w' & Hrun & Hadv) end.
    exists w'. split; [exact Hrun | ].
    destruct Hadv as (_ & _ & (ws & ->) & _). simpl.
    apply in_or_app. left. apply in_or_app. right. left. reflexivity.
  - cbn [for_each]. unfold bind at 1.
    destruct (Hbody x) as (_ & Hr). destruct (Hr v) as ([] & Hr').
    destruct (body x v) as [v1 r1]. simpl in Hr'. subst r1.
    apply (IH Hin v1).
Qed.

End Handler.



End PassResults.

(* ===================================================================== *)
(** * Runs of the validator over several files                            *)
(* ===================================================================== *)

Module CliFacts.
Import PyAst Files Validator ValidatorCli Progress FrameFacts MoreSamples Samples.
Import FileFacts.

(** ** Validation of one file reads only that file *)

Lemma attempt_fixes_local v fs1 fs2 p :
  file_path v = Some p -> fs1 !! p = fs2 !! p ->
  fst (_attempt_fixes v fs1) = fst (_attempt_fixes v fs2).
Proof.
  intros Hp E. unfold _attempt_fixes, read_file, write_file. rewrite Hp, E.
  destruct (fs2 !! p) as [f | ].
  - destruct (f_read_error f); [reflexivity | ].
    destruct (negb _); [ | reflexivity].
    destruct (f_write_error f); reflexivity.
  - reflexivity.
Qed.

Lemma validate_file_local parse v p fs1 fs2 :
  fs1 !! p = fs2 !! p ->
  fst (validate_file parse v p fs1) = fst (validate_file parse v p fs2).
Proof.
  intros E. unfold validate_file, exists_, read_file. rewrite E.
  destruct (fs2 !! p) as [f | ] eqn:E2; [ | reflexivity]. cbn [negb].
  rewrite <- E2 in E.
  destruct (f_read_error f); [reflexivity | ].
  destruct (parse (f_content f)) as [e | tree]; [reflexivity | ].
  pose proof (preserves_run_passes (set_ast_tree (Some tree) (set_file_path (Some p) v)))
    as (_ & _ & _ & _ & Hpath).
  destruct (run_passes _) as [v1 [e | []]]; [reflexivity | ].
  simpl in Hpath.
  destruct (fix_enabled v1 && negb (Nat.eqb (length (errors v1)) 0)); [ | reflexivity].
  pose proof (attempt_fixes_local v1 fs1 fs2 p Hpath E) as Hfix.
  destruct (_attempt_fixes v1 fs1) as [va fa], (_attempt_fixes v1 fs2) as [vb fb].
  simpl in Hfix. subst vb. reflexivity.
Qed.

Lemma enumerate_files {A} (l : list A) : forall n,
  map snd (combine (seq n (length l)) l) = l.
Proof.
  induction l as [|x l IH]; intros n; [reflexivity | ].
  simpl. rewrite IH. reflexivity.
Qed.

Lemma filter_split {A} (f : A -> bool) (l : list A) :
  length (List.filter f l) + length (List.filter (fun x => negb (f x)) l) = length l.
Proof.
  induction l as [|x l IH]; [reflexivity | ].
  simpl. destruct (f x); simpl; lia.
Qed.

Section Runs.

Variable parse : string -> result ast.
Variables verbose fix_on : bool.
Variable fs : FileSystem.

(** The loop of [main] on distinct paths, started on a file system that
    agrees with [fs] on them. *)
Lemma tally_counts total entries : forall t,
  List.NoDup (map snd entries) ->
  (forall p, In p (map snd entries) -> disk_after t !! p = fs !! p) ->
  let t' := fold_left (validate_next parse verbose fix_on total) entries t in
  passed t' = passed t
              + length (List.filter (validates_alone parse verbose fix_on fs) (map snd entries))
  /\ failed t' = failed t
                 + length (List.filter
                             (fun p => negb (validates_alone parse verbose fix_on fs p))
                             (map snd entries))
  /\ (forall q, ~ In q (map snd entries) -> disk_after t' !! q = disk_after t !! q).
Proof.
  induction entries as [|[i p] entries IH]; intros t Hnd Hdisk.
  - simpl. repeat split; lia.
  - cbn [map snd] in Hnd, Hdisk. apply List.NoDup_cons_iff in Hnd as (Hp & Hnd).
    cbn [fold_left map snd List.filter].
    set (t1 := validate_next parse verbose fix_on total t (i, p)).
    assert (H1 : passed t1 = (if validates_alone parse verbose fix_on fs p
                              then S (passed t) else passed t)
                 /\ failed t1 = (if validates_alone parse verbose fix_on fs p
                                 then failed t else S (failed t))
                 /\ forall q, q <> p -> disk_after t1 !! q = disk_after t !! q).
    { subst t1. unfold validate_next, validates_alone.
      pose proof (validate_file_local parse (init verbose fix_on) p (disk_after t) fs
                    (Hdisk p (or_introl eq_refl))) as Hloc.
      pose proof (validate_file_other_paths parse (init verbose fix_on) p (disk_after t))
        as Hother.
      destruct (validate_file parse (init verbose fix_on) p (disk_after t))
        as [[ok v1] fs1].
      rewrite <- Hloc. simpl in Hother |- *. repeat split; auto. }
    destruct H1 as (Hpass & Hfail & Hother).
    destruct (IH t1 Hnd) as (IHp & IHf & IHd).
    { intros q Hq. rewrite Hother.
      - apply Hdisk. right; assumption.
      - intros ->. contradiction. }
    cbn zeta in *. rewrite IHp, IHf, Hpass, Hfail.
    destruct (validates_alone parse verbose fix_on fs p); cbn [negb length];
      (split; [lia | split; [lia | ]]);
      intros q Hq; (rewrite IHd by (intros Hin; apply Hq; right; exact Hin)); apply Hother; intros ->; apply Hq; left; reflexivity.
Qed.

End Runs.

Lemma files_counts parse verbose fix_on files fs :
  List.NoDup files ->
  let t := validate_files parse verbose fix_on files fs in
  passed t = length (List.filter (validates_alone parse verbose fix_on fs) files)
  /\ failed t = length (List.filter
                          (fun p => negb (validates_alone parse verbose fix_on fs p)) files).
Proof.
  intros Hnd t. subst t. unfold validate_files, enumerate1.
  pose proof (enumerate_files files 1) as Hmap.
  match goal with |- context [fold_left _ _ ?t0] =>
    destruct (tally_counts parse verbose fix_on fs (length files)
                (combine (seq 1 (length files)) files) t0) as (Hp & Hf & _) end.
  - rewrite Hmap. exact Hnd.
  - intros p _. reflexivity.
  - cbn zeta in *. rewrite Hmap in *. simpl in Hp, Hf. split; assumption.
Qed.

Lemma no_failure_iff {A} (f : A -> bool) (l : list A) :
  length (List.filter (fun x => negb (f x)) l) = 0 <-> forall x, In x l -> f x = true.
Proof.
  induction l as [|x l IH]; simpl.
  - split; [intros _ y [] | reflexivity].
  - destruct (f x) eqn:E; simpl.
    + rewrite IH. split; [intros H y [<- | Hy]; auto | intros H y Hy; apply H; right; exact Hy].
    + split; [discriminate | ]. intros H. specialize (H x (or_introl eq_refl)). congruence.
Qed.





End CliFacts.

(* ===================================================================== *)
(** * More on the debugger                                                *)
(* ===================================================================== *)

Module DebugMore.
Import PyAst Files Debug DebugReport MoreSamples Samples StrFacts AstFacts DebugFacts.

(** ** The tree of a static analysis *)

Lemma append_empty_r s : (s ++ EmptyString)%string = s.
Proof. induction s as [|a s IH]; [reflexivity | ]. rewrite append_cons, IH. reflexivity. Qed.

Lemma static_widget_shape tree w :
  In w (extract_widgets_from_ast tree) ->
  w_id w = None /\ w_classes w = [] /\ w_parent w = None /\ w_children w = []
  /\ w_visible w = true.
Proof.
  unfold extract_widgets_from_ast. intros H. apply in_flat_map in H.
  destruct H as (node & _ & H).
  destruct node as [| | | | | | | | |lineno func args kws| | |]; try contradiction.
  destruct func as [| | | | | | | |value widget_type| | | |]; try contradiction.
  destruct (existsb _ _); [ | contradiction].
  destruct H as [<- | []]. repeat split.
Qed.

Lemma render_flat widget_map levels (l : list WidgetInfo) :
  (forall w, In w l ->
     w_id w = None /\ w_classes w = [] /\ w_parent w = None /\ w_children w = []
     /\ w_visible w = true) ->
  flat_map (fun w => render_widget widget_map (S levels) w 0)
           (List.filter (is_root widget_map) l)
  = map (fun w => ("├─ " ++ w_type w)%string) l.
Proof.
  induction l as [|w l IH]; intros H; [reflexivity | ].
  destruct (H w (or_introl eq_refl)) as (Hid & Hcls & Hpar & Hch & Hvis).
  assert (Hroot : is_root widget_map w = true) by (unfold is_root; rewrite Hpar; reflexivity).
  cbn [List.filter]. rewrite Hroot.
  cbn [flat_map map].
  rewrite IH by (intros w' Hw'; apply H; right; exact Hw').
  cbn [render_widget]. rewrite Hch. cbn [flat_map app].
  f_equal. unfold render_line. rewrite Hid, Hcls, Hvis. cbn [truthy repeat_string].
  rewrite !append_nil, append_empty_r. reflexivity.
Qed.

Lemma render_nothing widget_map (l : list WidgetInfo) :
  flat_map (fun w => render_widget widget_map 0 w 0) l = [].
Proof. induction l as [|w l IH]; [reflexivity | exact IH]. Qed.

(** X16.  The tree printed for a static analysis is always flat: whatever
    the nesting of the calls in the source, [format_widget_tree] prints,
    between the heading and the rule, one line [├─ <type>] at depth 0 for
    each recognised call, in the order of the walk, for every depth limit
    that is not negative, and no widget line at all for a negative
    one. *)
Theorem static_tree_is_flat (tree : ast) (max_depth : Z) :
  extract_widgets_from_ast tree <> [] ->
  format_widget_tree (extract_widgets_from_ast tree) max_depth
  = PyStr.join nl
      ([ "WIDGET TREE"; Validator.rule ]
       ++ (if (0 <=? max_depth)%Z
           then map (fun w => ("├─ " ++ w_type w)%string) (extract_widgets_from_ast tree)
           else [])
       ++ [ Validator.rule ]).
Proof.
  intros Hne. unfold format_widget_tree.
  pose proof (static_widget_shape tree) as Hshape.
  destruct (extract_widgets_from_ast tree) as [|w l] eqn:E; [contradiction | ].
  destruct (Z.leb_spec 0 max_depth) as [Hpos | Hneg].
  - replace (Z.to_nat (max_depth + 1)) with (S (Z.to_nat max_depth)) by lia.
    rewrite render_flat by exact Hshape. reflexivity.
  - replace (Z.to_nat (max_depth + 1)) with 0 by lia.
    rewrite render_nothing. reflexivity.
Qed.

(** X16 on a button inside a container, with the default limit and with
    a negative one. *)
Lemma static_tree_is_flat_witness :
  format_widget_tree (extract_widgets_from_ast nested_call_tree) 5
  = PyStr.join nl [ "WIDGET TREE"; Validator.rule; "├─ Container"; "├─ Button";
                    Validator.rule ]
  /\ format_widget_tree (extract_widgets_from_ast nested_call_tree) (-1)
     = PyStr.join nl [ "WIDGET TREE"; Validator.rule; Validator.rule ].
Proof.
  split.
  - rewrite (static_tree_is_flat nested_call_tree 5); [reflexivity | ].
    vm_compute. discriminate.
  - rewrite (static_tree_is_flat nested_call_tree (-1)); [reflexivity | ].
    vm_compute. discriminate.
Defined.

(** ** The snapshot of a live tree *)

Lemma sum_live_size l :
  (fix sum (l : list LiveNode) : nat :=
     match l with [] => 0 | child :: l' => live_size child + sum l' end) l
  = list_sum (map live_size l).
Proof.
  induction l as [|c l IH]; [reflexivity | ].
  change (list_sum (map live_size (c :: l))) with (live_size c + list_sum (map live_size l)).
  rewrite <- IH. reflexivity.
Qed.

Lemma live_size_unfold cls ident attr_id attr_classes nodes :
  live_size (Live cls ident attr_id attr_classes nodes)
  = S (match nodes with
       | None => 0
       | Some l => list_sum (map live_size l)
       end).
Proof.
  cbn [live_size]. destruct nodes as [l | ]; [ | reflexivity]. rewrite sum_live_size.
  reflexivity.
Qed.

Lemma live_size_interrupted cls ident attr_id attr_classes seen e :
  live_size (Interrupted cls ident attr_id attr_classes seen e)
  = S (list_sum (map live_size seen)).
Proof. cbn [live_size]. rewrite sum_live_size. reflexivity. Qed.

Lemma all_read_unfold cls ident attr_id attr_classes l :
  all_read (Live cls ident attr_id attr_classes (Some l)) = forallb all_read l.
Proof.
  cbn [all_read]. induction l as [|c l IH]; [reflexivity | ].
  cbn [forallb]. rewrite <- IH. reflexivity.
Qed.

Lemma over_length_le widget_name l :
  Forall (fun node => forall parent,
            length (_extract_widgets_from_node node parent) <= live_size node) l ->
  length (over widget_name l) <= list_sum (map live_size l).
Proof.
  unfold over. induction l as [|c l IHl]; intros H; [reflexivity | ].
  apply Forall_cons_1 in H as (Hc & Hl).
  change (list_sum (map live_size (c :: l))) with (live_size c + list_sum (map live_size l)).
  cbn [flat_map]. rewrite length_app.
  specialize (Hc (Some widget_name)). specialize (IHl Hl). lia.
Qed.

(** The walk returns at most one entry for each object of the tree. *)
Lemma extract_length_le node : forall parent,
  length (_extract_widgets_from_node node parent) <= live_size node.
Proof.
  induction node as [cls ident attr_id attr_classes nodes IH | cls ident e
                    | cls ident attr_id attr_classes seen e IH] using LiveNode_ind';
    intros parent.
  - rewrite extract_unfold, live_size_unfold. cbv zeta. cbn [length]. apply le_n_S.
    destruct nodes as [l | ]; [ | reflexivity]. apply over_length_le, IH.
  - cbn. lia.
  - rewrite extract_unfold_interrupted, live_size_interrupted. cbv zeta. cbn [length].
    apply le_n_S. apply over_length_le, IH.
Qed.

(** It returns exactly one for each when no read raises. *)
Lemma extract_length node : forall parent,
  all_read node = true ->
  length (_extract_widgets_from_node node parent) = live_size node.
Proof.
  induction node as [cls ident attr_id attr_classes nodes IH | cls ident e
                    | cls ident attr_id attr_classes seen e IH] using LiveNode_ind';
    intros parent Hall; try discriminate.
  rewrite extract_unfold, live_size_unfold. cbv zeta. cbn [length]. f_equal.
  destruct nodes as [l | ]; [ | reflexivity].
  rewrite all_read_unfold in Hall.
  unfold over. induction l as [|c l IHl]; [reflexivity | ].
  apply Forall_cons_1 in IH as (Hc & Hl).
  cbn [forallb] in Hall. apply andb_true_iff in Hall as (Hallc & Halll).
  change (list_sum (map live_size (c :: l))) with (live_size c + list_sum (map live_size l)).
  cbn [flat_map]. rewrite length_app, (Hc _ Hallc), (IHl Hl Halll). reflexivity.
Qed.

(** X17.  The snapshot of a running application whose screen can be
    reached: it is empty exactly when reading the [id] or the [classes] of
    the screen raises; otherwise its first entry is the screen, named by
    its class and identity, the only entry without a parent, and the
    children list of that entry names every other entry, also when
    exceptions below the screen cut the walk short.  The snapshot has at
    most one entry for each object the walk reaches, and exactly one when
    no read raises. *)
Theorem snapshot_shape (app_instance : AppInstance) (root : LiveNode) :
  has_context app_instance = true ->
  screen app_instance = inr root ->
  let snapshot := get_widget_tree app_instance in
  (snapshot = [] <-> exists cls ident e, root = Unreadable cls ident e)
  /\ (snapshot = []
      \/ exists r rest,
           snapshot = r :: rest
           /\ w_name r = widget_name_of (node_cls root) (node_ident root)
           /\ w_type r = node_cls root
           /\ w_parent r = None
           /\ (forall w, In w rest -> w_parent w <> None)
           /\ w_children r = map w_name rest)
  /\ length snapshot <= live_size root
  /\ (all_read root = true -> length snapshot = live_size root).
Proof.
  intros Hctx Hscreen snapshot. subst snapshot. unfold get_widget_tree.
  rewrite Hctx, Hscreen.
  split; [ | split; [ | split; [apply extract_length_le | apply extract_length]]].
  - destruct root as [cls ident attr_id attr_classes nodes | cls ident e
                     | cls ident attr_id attr_classes seen e].
    + rewrite extract_unfold. cbv zeta. split; [discriminate | ].
      intros (c & i & e & H). discriminate.
    + split; [eauto | reflexivity].
    + rewrite extract_unfold_interrupted. cbv zeta. split; [discriminate | ].
      intros (c & i & e' & H). discriminate.
  - destruct (children_are_descendants root None)
      as [Hnil | (r & rest & Heq & Hname & Htype & Hparent & Hchildren)];
      [left; exact Hnil | right].
    exists r, rest. repeat split; try assumption.
    intros w Hw Hnone.
    assert (Hin : In w (_extract_widgets_from_node root None))
      by (rewrite Heq; right; exact Hw).
    assert (Hbelow : exists name, w_parent w = Some name); [ | destruct Hbelow; congruence].
    clear Hin. revert Heq Hw. clear.
    destruct root as [cls ident attr_id attr_classes nodes | cls ident e
                     | cls ident attr_id attr_classes seen e].
    + rewrite extract_unfold. cbv zeta. intros Heq Hw. injection Heq as _ <-.
      destruct nodes as [l | ]; [ | destruct Hw].
      unfold over in Hw. apply in_flat_map in Hw. destruct Hw as (child & _ & Hw).
      destruct (walk_parents child _ w Hw) as [Hp | (w' & _ & Hp)]; eauto.
    + discriminate.
    + rewrite extract_unfold_interrupted. cbv zeta. intros Heq Hw. injection Heq as _ <-.
      unfold over in Hw. apply in_flat_map in Hw. destruct Hw as (child & _ & Hw).
      destruct (walk_parents child _ w Hw) as [Hp | (w' & _ & Hp)]; eauto.
Qed.

(** X17 on the screen that holds a container that holds a button. *)
Lemma snapshot_shape_witness :
  length (get_widget_tree live_app) = 3
  /\ exists r rest,
       get_widget_tree live_app = r :: rest
       /\ w_name r = "Screen_1"
       /\ w_parent r = None
       /\ (forall w, In w rest -> w_parent w <> None)
       /\ w_children r = map w_name rest.
Proof.
  destruct (snapshot_shape live_app live_screen eq_refl eq_refl)
    as (_ & [Hnil | (r & rest & Heq & Hname & _ & Hparent & Hrest & Hchildren)] & _ & Hlen).
  - discriminate Hnil.
  - split; [exact (Hlen eq_refl) | ].
    exists r, rest. repeat split; assumption.
Defined.

(** A screen one of whose two children cannot be read: the snapshot
    leaves that child and what is below it out, and keeps the rest. *)
Example partial_snapshot :
  map (fun w => (w_name w, w_parent w, w_children w)) (get_widget_tree broken_app)
  = [ ("Screen_1", None, ["Button_3"]); ("Button_3", Some "Screen_1", []) ].
Proof. reflexivity. Qed.

(** ** Diagnosis *)

Lemma split_length c s : length (PyStr.split c s) = S (PyStr.count c s).
Proof.
  induction s as [|a s IH]; [reflexivity | ].
  cbn [PyStr.split PyStr.count]. destruct (Ascii.eqb a c).
  - cbn [length]. rewrite IH. reflexivity.
  - destruct (PyStr.split c s); [discriminate | ]. exact IH.
Qed.

Lemma error_type_prefix ty rest :
  PyStr.count colon ty = 0 -> error_type (ty ++ ":" ++ rest) = ty.
Proof.
  intros H. unfold error_type. rewrite append_cons, append_nil.
  rewrite (contains_app_r ":" ty (String ":" rest))
    by (apply contains_prefix; simpl; apply prefix_empty).
  change (String ":" rest) with (String colon rest).
  rewrite (split_app_free colon ty rest H). reflexivity.
Qed.

Lemma error_type_known error ty :
  error_type error = ty -> ty <> "Unknown"%string ->
  exists rest, error = (ty ++ ":" ++ rest)%string.
Proof.
  unfold error_type. intros Hty Hne.
  destruct (PyStr.contains ":" error) eqn:Hc; [ | congruence].
  change ":"%string with (String colon EmptyString) in Hc.
  rewrite contains_char in Hc.
  pose proof (split_length colon error) as Hlen.
  pose proof (join_split colon error) as Hjoin.
  destruct (PyStr.split colon error) as [|h [|x l]].
  - discriminate.
  - simpl in Hlen. destruct (PyStr.count colon error); [discriminate | lia].
  - simpl in Hty. subst h. unfold PyStr.join in Hjoin. rewrite concat_cons2 in Hjoin.
    eexists. symmetry. exact Hjoin.
Qed.

Lemma dict_get_Some {A} k (d : list (string * A)) a :
  dict_get k d = Some a -> In k (map fst d).
Proof.
  induction d as [|[k' a'] d IH]; [discriminate | ]. simpl.
  destruct (String.eqb_spec k' k); [left; assumption | right; auto].
Qed.

(** X19.  [diagnose_errors] lists solutions for an error exactly when the
    text before its first colon is one of [ImportError], [SyntaxError],
    [AttributeError], [TypeError] and [KeyError], written so; every other
    error, with or without a colon, gets its own line and nothing else. *)
Theorem solutions_for_known_types (error : string) :
  (tl (diagnose_entry error) <> []
   <-> exists ty rest,
         error = (ty ++ ":" ++ rest)%string
         /\ In ty [ "ImportError"; "SyntaxError"; "AttributeError"; "TypeError";
                    "KeyError" ]%string)
  /\ (tl (diagnose_entry error) = [] -> diagnose_entry error = [(nl ++ error)%string]).
Proof.
  split.
  - unfold diagnose_entry. cbn [tl]. split.
    + intros H. destruct (dict_get (error_type error) common_issues) as [sols | ] eqn:E;
        [ | contradiction].
      apply dict_get_Some in E. change (map fst common_issues) with
        [ "ImportError"; "SyntaxError"; "AttributeError"; "TypeError"; "KeyError" ]%string in E.
      destruct (error_type_known error (error_type error) eq_refl) as (rest & Hrest).
      { intros Hu. rewrite Hu in E. simpl in E. intuition discriminate. }
      exists (error_type error), rest. split; assumption.
    + intros (ty & rest & -> & Hty).
      assert (Hfree : PyStr.count colon ty = 0).
      { simpl in Hty. intuition (subst; reflexivity). }
      rewrite (error_type_prefix ty rest Hfree).
      simpl in Hty. intuition (subst; discriminate).
  - unfold diagnose_entry. cbn [tl]. intros ->. reflexivity.
Qed.

End DebugMore.
